(** * prmonitor: the background script (src/background.ts)

    A shallow embedding of the review-relevance classifier, the
    notification dedup step and the polling-cycle orchestrator of the
    Chrome extension's background script, with the properties of the
    specification stated and proved over it. *)

From stdpp Require Import gmap strings list.
From Stdlib Require Import ZArith Lia DecimalString.

Local Open Scope string_scope.
Local Open Scope list_scope.
Local Open Scope Z_scope.

(** ** Data model: the nodes of the GraphQL answer *)

(** [createdAt] and [updatedAt] are ISO-8601 [DateTime] scalars in the
    answer; the script only ever looks at [new Date(s).getTime()], the
    number of milliseconds since the Unix epoch.  The fields below hold
    that time value: an integer, negative for an instant before the
    epoch. *)
Definition time := Z.

Record Actor := { login : string }.

Record Review := {
  review_author : Actor;
  review_createdAt : time;
  state : string
}.

Record Comment := {
  comment_author : Actor;
  comment_createdAt : time
}.

(** [requestedReviewer { ... on User { login } }]: a requested reviewer
    that is not a user (a team) has no [login] property. *)
Record ReviewRequest := { requestedReviewer : option string }.

Record PullRequest := {
  url : string;
  title : string;
  updatedAt : time;
  reviews : list Review;
  comments : list Comment;
  author : Actor;
  assignees : list Actor;
  reviewRequests : list ReviewRequest
}.

Record Repository := {
  nameWithOwner : string;
  pullRequests : list PullRequest
}.

(** ** Objects and [Set]s of objects

    A JavaScript [Set] of objects compares its members by identity, and
    iterates in insertion order.  An object is its address together with
    its fields; the set is the list of its members, oldest first. *)

Record object (A : Type) := Obj { address : nat; fields : A }.
Arguments Obj {A} _ _.
Arguments address {A} _.
Arguments fields {A} _.

Definition JSSet (A : Type) := list (object A).

Definition set_has {A} (o : object A) (s : JSSet A) : bool :=
  existsb (fun x => Nat.eqb (address x) (address o)) s.

Definition set_add {A} (o : object A) (s : JSSet A) : JSSet A :=
  if set_has o s then s else s ++ [o].

Definition set_size {A} (s : JSSet A) : nat := length s.

(** ** Review-state classifier: the body of [excludeReviewedPullRequests] *)

Definition getLastUpdatedTime (pullRequest : PullRequest) : time :=
  updatedAt pullRequest.

(** One turn of the loop over [pullRequest.reviews.nodes]; the state is
    [(lastReviewedOrCommentedAtTime, approvedByViewer)]. *)
Definition scanReview (viewer : string) (acc : time * bool) (review : Review)
  : time * bool :=
  let '(lastReviewedOrCommentedAtTime, approvedByViewer) := acc in
  if negb (String.eqb (login (review_author review)) viewer) then acc
  else
    let approvedByViewer :=
      if String.eqb (state review) "APPROVED" then true else approvedByViewer in
    let reviewTime := review_createdAt review in
    (Z.max reviewTime lastReviewedOrCommentedAtTime, approvedByViewer).

(** One turn of the loop over [pullRequest.comments.nodes]. *)
Definition scanComment (viewer : string) (lastReviewedOrCommentedAtTime : time)
  (comment : Comment) : time :=
  if negb (String.eqb (login (comment_author comment)) viewer)
  then lastReviewedOrCommentedAtTime
  else
    let commentTime := comment_createdAt comment in
    Z.max commentTime lastReviewedOrCommentedAtTime.

Definition isReviewed (viewer : string) (pullRequest : PullRequest) : bool :=
  let lastUpdatedTime := getLastUpdatedTime pullRequest in
  let '(afterReviews, approvedByViewer) :=
    fold_left (scanReview viewer) (reviews pullRequest) (0, false) in
  let lastReviewedOrCommentedAtTime :=
    fold_left (scanComment viewer) (comments pullRequest) afterReviews in
  approvedByViewer || (lastReviewedOrCommentedAtTime >? lastUpdatedTime).

Definition isUnreviewed (viewer : string) (pullRequest : PullRequest) : bool :=
  negb (isReviewed viewer pullRequest).

Definition excludeReviewedPullRequests (viewer : string)
  (pullRequests : JSSet PullRequest) : JSSet PullRequest :=
  fold_left
    (fun unreviewedPullRequests pullRequest =>
       if negb (isReviewed viewer (fields pullRequest))
       then set_add pullRequest unreviewedPullRequests
       else unreviewedPullRequests)
    pullRequests [].

(** ** Relevance filter: the loops at the end of [loadPullRequests] *)

(** The three inner loops; each adds the pull request to the set once per
    matching node, and [Set.add] ignores an object that is already there. *)
Definition addForAssignees (viewer : string) (pullRequest : object PullRequest)
  (s : JSSet PullRequest) : JSSet PullRequest :=
  fold_left
    (fun s assignee =>
       if String.eqb (login assignee) viewer then set_add pullRequest s else s)
    (assignees (fields pullRequest)) s.

Definition addForReviewRequests (viewer : string)
  (pullRequest : object PullRequest) (s : JSSet PullRequest)
  : JSSet PullRequest :=
  fold_left
    (fun s reviewRequest =>
       match requestedReviewer reviewRequest with
       | Some l => if String.eqb l viewer then set_add pullRequest s else s
       | None => s
       end)
    (reviewRequests (fields pullRequest)) s.

Definition addForReviews (viewer : string) (pullRequest : object PullRequest)
  (s : JSSet PullRequest) : JSSet PullRequest :=
  fold_left
    (fun s review =>
       if String.eqb (login (review_author review)) viewer
       then set_add pullRequest s else s)
    (reviews (fields pullRequest)) s.

(** The body of the loop over the pull requests of a repository. *)
Definition selectPullRequest (viewer : string) (s : JSSet PullRequest)
  (pullRequest : object PullRequest) : JSSet PullRequest :=
  if String.eqb (login (author (fields pullRequest))) viewer
  then s (* continue *)
  else
    addForReviews viewer pullRequest
      (addForReviewRequests viewer pullRequest
         (addForAssignees viewer pullRequest s)).

(** Both loops, over [repositories.nodes] and over their
    [pullRequests.nodes], starting from [new Set()]. *)
Definition selectPullRequests (viewer : string)
  (repositories : list (list (object PullRequest))) : JSSet PullRequest :=
  fold_left
    (fun s repository => fold_left (selectPullRequest viewer) repository s)
    repositories [].

(** The relevance rule in the words of the specification (section 4.1). *)
Definition relevant_spec (viewer : string) (pullRequest : PullRequest) : bool :=
  negb (String.eqb (login (author pullRequest)) viewer)
  && (existsb (fun a => String.eqb (login a) viewer) (assignees pullRequest)
      || existsb
           (fun rr => match requestedReviewer rr with
                      | Some l => String.eqb l viewer
                      | None => false
                      end)
           (reviewRequests pullRequest)
      || existsb (fun r => String.eqb (login (review_author r)) viewer)
           (reviews pullRequest)).

(** ** The answer of the data source, and its parsing into objects *)

Record Viewer := {
  viewer_login : string;
  repositories : list Repository
}.

(** The JSON body: [result.errors] (the messages of the array's entries),
    [result.message] and [result.data.viewer]; each may be missing. *)
Record Body := {
  result_errors : option (list string);
  result_message : option string;
  result_data : option Viewer
}.

Record Response := { status : Z; body : Body }.

(** Parsing makes one fresh object per pull-request node, in document
    order. *)
Fixpoint alloc {A} (n : nat) (l : list A) : list (object A) :=
  match l with
  | [] => []
  | x :: l' => Obj n x :: alloc (S n) l'
  end.

Fixpoint alloc_repositories (n : nat) (rs : list Repository)
  : list (list (object PullRequest)) :=
  match rs with
  | [] => []
  | r :: rs' =>
      alloc n (pullRequests r)
      :: alloc_repositories (n + length (pullRequests r))%nat rs'
  end.

Definition node_count (b : Body) : nat :=
  match result_data b with
  | Some v => length (concat (map pullRequests (repositories v)))
  | None => 0%nat
  end.

(** ** The world of the background script *)

Record Error := { message : string }.

Inductive Result (A : Type) :=
| Ok (a : A)
| Throw (e : Error).
Arguments Ok {A} _.
Arguments Throw {A} _.

(** Values kept in [chrome.storage.local]. *)
Inductive StoreVal :=
| VNull
| VString (s : string)
| VUrls (l : list string)
| VPulls (l : list PullRequest).

(** The calls the script makes to its collaborators.  What it writes to
    the console ([console.log], [console.error]) is diagnostic only and is
    left out. *)
Inductive Call :=
| GetToken
| Fetch (token : string)
| Json
| StorageSet (key : string) (v : StoreVal)
| StorageGet (key : string)
| SetBadgeText (text : string)
| SetBadgeBackgroundColor (color : string)
| NotificationsCreate (id : string) (message : string).

Record Badge := { badge_text : string; badge_color : string }.

Record World := {
  storage : gmap string StoreVal;
  badge : Badge;
  trace : list Call;        (* every call made so far, oldest first *)
  next_address : nat        (* the next fresh object address *)
}.

(** What the collaborators answer during a cycle: the token of
    [getGitHubApiToken] (module ./auth), the answer of the data source,
    and which calls fail: [faults n = Some e] makes the call number [n]
    (counting from the first call ever made in this world) throw [e], or
    reject with [e], without any effect. *)
Record Env := {
  env_token : string;
  env_response : Response;
  faults : nat -> option Error
}.

Definition M (A : Type) := Env -> World -> Result A * World.

Definition ret {A} (a : A) : M A := fun _ w => (Ok a, w).

Definition bind {A B} (m : M A) (k : A -> M B) : M B :=
  fun env w =>
    match m env w with
    | (Ok a, w') => k a env w'
    | (Throw e, w') => (Throw e, w')
    end.

Definition throw {A} (e : Error) : M A := fun _ w => (Throw e, w).

Notation "'do' x <- m ; k" := (bind m (fun x => k))
  (at level 10, x pattern, m at level 100, k at level 200).

(** [try { body } catch (e) { handler e }]. *)
Definition try_catch {A} (body : M A) (handler : Error -> M A) : M A :=
  fun env w =>
    match body env w with
    | (Ok a, w') => (Ok a, w')
    | (Throw e, w') => handler e env w'
    end.

(** Calling an [async] function without awaiting it: its body runs up to
    its end (it has no [await]), and a failure only rejects the promise
    nobody looks at. *)
Definition unawaited (m : M unit) : M unit :=
  fun env w => (Ok tt, snd (m env w)).

Definition log_call (c : Call) (w : World) : World :=
  {| storage := storage w; badge := badge w;
     trace := trace w ++ [c]; next_address := next_address w |}.

(** A call to a collaborator: it is logged, then it fails if the
    environment says so, else it has its effect and returns its answer
    (computed in the world before the effect). *)
Definition call {A} (c : Call) (effect : World -> World) (answer : World -> A)
  : M A :=
  fun env w =>
    match faults env (length (trace w)) with
    | Some e => (Throw e, log_call c w)
    | None => (Ok (answer w), effect (log_call c w))
    end.

Fixpoint for_each {A} (f : A -> M unit) (l : list A) : M unit :=
  match l with
  | [] => ret tt
  | x :: l' => do _ <- f x; for_each f l'
  end.

(** ** The collaborators *)

Definition set_storage (key : string) (v : StoreVal) (w : World) : World :=
  {| storage := <[key := v]> (storage w); badge := badge w;
     trace := trace w; next_address := next_address w |}.

Definition set_badge_text (text : string) (w : World) : World :=
  {| storage := storage w;
     badge := {| badge_text := text; badge_color := badge_color (badge w) |};
     trace := trace w; next_address := next_address w |}.

Definition set_badge_color (color : string) (w : World) : World :=
  {| storage := storage w;
     badge := {| badge_text := badge_text (badge w); badge_color := color |};
     trace := trace w; next_address := next_address w |}.

Definition reserve (n : nat) (w : World) : World :=
  {| storage := storage w; badge := badge w;
     trace := trace w; next_address := (next_address w + n)%nat |}.

(** [chrome.storage.local.set({ key: v })] and
    [chrome.storage.local.get([key])]. *)
Definition storage_set (key : string) (v : StoreVal) : M unit :=
  call (StorageSet key v) (set_storage key v) (fun _ => tt).

Definition storage_get (key : string) : M (option StoreVal) :=
  call (StorageGet key) (fun w => w) (fun w => storage w !! key).

Definition setBadgeText (text : string) : M unit :=
  call (SetBadgeText text) (set_badge_text text) (fun _ => tt).

Definition setBadgeBackgroundColor (color : string) : M unit :=
  call (SetBadgeBackgroundColor color) (set_badge_color color) (fun _ => tt).

Definition notifications_create (id : string) (msg : string) : M unit :=
  call (NotificationsCreate id msg) (fun w => w) (fun _ => tt).

(** [getGitHubApiToken] of ./auth is taken as a collaborator that answers
    the token of the environment, or fails. *)
Definition getGitHubApiToken : M string :=
  fun env => call GetToken (fun w => w) (fun _ => env_token env) env.

Definition fetch (token : string) : M Response :=
  fun env => call (Fetch token) (fun w => w) (fun _ => env_response env) env.

(** [data.json()]: the body, and the address of the first of the objects
    made for its pull-request nodes. *)
Record Parsed := { result : Body; first_address : nat }.

Definition json (data : Response) : M Parsed :=
  call Json (reserve (node_count (body data)))
    (fun w => {| result := body data; first_address := next_address w |}).

(** ** The functions of the script *)

(** JavaScript truthiness of an optional string property. *)
Definition truthy (s : option string) : bool :=
  match s with
  | Some s => negb (String.eqb s "")
  | None => false
  end.

(** The message of the [TypeError] raised on reading a property of
    [undefined]; its wording is the engine's. *)
Definition TypeError (property : string) : Error :=
  {| message := "Cannot read property '" +:+ property +:+ "' of undefined" |}.

Definition loadPullRequests (token : string)
  : M (string * JSSet PullRequest) :=
  do data <- fetch token;
  do parsed <- json data;
  match result_errors (result parsed) with
  | Some errors =>
      match errors with
      | first :: _ => throw {| message := first |}
      | [] => throw (TypeError "message")
      end
  | None =>
      if negb (status data =? 200) && truthy (result_message (result parsed))
      then throw {| message := default "" (result_message (result parsed)) |}
      else
        match result_data (result parsed) with
        | None => throw (TypeError "viewer")
        | Some viewer =>
            let login := viewer_login viewer in
            let nodes :=
              alloc_repositories (first_address parsed) (repositories viewer) in
            ret (login, selectPullRequests login nodes)
        end
  end.

(** [Array.from(pullRequests)], as the storage serialises it. *)
Definition saveUnreviewedPullRequests (pullRequests : JSSet PullRequest)
  : M unit :=
  storage_set "unreviewedPullRequests" (VPulls (map fields pullRequests)).

(** ["" + prCount]. *)
Definition decimal (n : nat) : string :=
  NilZero.string_of_uint (Nat.to_uint n).

Definition updateBadge (prCount : nat) : M unit :=
  do _ <- setBadgeText (decimal prCount);
  setBadgeBackgroundColor (if Nat.eqb prCount 0 then "#4d4" else "#f00").

Definition showBadgeError : M unit :=
  do _ <- setBadgeText "!";
  setBadgeBackgroundColor "#000".

Definition showNotification (pullRequest : object PullRequest) : M unit :=
  let notificationId := url (fields pullRequest) in
  notifications_create notificationId (title (fields pullRequest)).

Definition recordSeenPullRequests (pullRequests : JSSet PullRequest) : M unit :=
  storage_set "lastSeenPullRequests"
    (VUrls (map (fun p => url (fields p)) pullRequests)).

(** [result.lastSeenPullRequests || []], as the members of the [Set] built
    from it: the stored array of urls; nothing when the key is missing,
    null or the empty string; the characters of any other string; no
    string at all for an array of objects. *)
Definition seenUrls (v : option StoreVal) : list string :=
  match v with
  | Some (VUrls l) => l
  | Some (VString s) => map (fun c => String c EmptyString) (String.list_ascii_of_string s)
  | Some (VPulls _) | Some VNull | None => []
  end.

Definition getLastSeenPullRequestsUrls : M (list string) :=
  do value <- storage_get "lastSeenPullRequests";
  ret (seenUrls value).

Definition showNotificationForNewPullRequests
  (pullRequests : JSSet PullRequest) : M unit :=
  do urls <- getLastSeenPullRequestsUrls;
  let lastSeenPullRequestUrls : gset string := list_to_set urls in
  do _ <- for_each
            (fun pullRequest =>
               if negb (bool_decide
                          (url (fields pullRequest) ∈ lastSeenPullRequestUrls))
               then showNotification pullRequest
               else ret tt)
            pullRequests;
  unawaited (recordSeenPullRequests pullRequests).

Definition checkPullRequests : M unit :=
  do error <-
    try_catch
      (do token <- getGitHubApiToken;
       do (login, pullRequests) <- loadPullRequests token;
       let unreviewedPullRequests :=
         excludeReviewedPullRequests login pullRequests in
       do _ <- saveUnreviewedPullRequests unreviewedPullRequests;
       do _ <- updateBadge (set_size unreviewedPullRequests);
       do _ <- showNotificationForNewPullRequests unreviewedPullRequests;
       ret None)
      (fun e =>
         do _ <- showBadgeError;
         ret (Some e));
  storage_set "error"
    (match error with
     | Some e => VString (message e)
     | None => VNull
     end).

(** ** Sample data *)

Definition alice : Actor := {| login := "alice" |}.
Definition bob : Actor := {| login := "bob" |}.

Definition sample_pr (u : string) (t : time) (rs : list Review)
  (cs : list Comment) : PullRequest :=
  {| url := u; title := "Fix it"; updatedAt := t; reviews := rs;
     comments := cs; author := bob; assignees := [alice];
     reviewRequests := [] |}.

Definition sample_env (prs : list PullRequest) (f : nat -> option Error) : Env :=
  {| env_token := "t0";
     env_response :=
       {| status := 200;
          body := {| result_errors := None; result_message := None;
                     result_data :=
                       Some {| viewer_login := "alice";
                               repositories :=
                                 [{| nameWithOwner := "bob/repo";
                                     pullRequests := prs |}] |} |} |};
     faults := f |}.

Definition empty_world : World :=
  {| storage := ∅; badge := {| badge_text := ""; badge_color := "" |};
     trace := []; next_address := 0 |}.

(** An answer of the data source that is an error, and a world that
    holds the results of an earlier cycle. *)
Definition failing_env : Env :=
  {| env_token := "t0";
     env_response :=
       {| status := 401;
          body := {| result_errors := None;
                     result_message := Some "Bad credentials";
                     result_data := None |} |};
     faults := fun _ => None |}.

Definition stale_world : World :=
  {| storage :=
       <["unreviewedPullRequests" := VPulls [sample_pr "u0" 1 [] []]]>
         (<["lastSeenPullRequests" := VUrls ["u0"]]> ∅);
     badge := {| badge_text := "1"; badge_color := "#f00" |};
     trace := []; next_address := 0 |}.

(** An environment in which the call number 4 of the cycle, the first
    call of [updateBadge], fails. *)
Definition badge_failure : Error := {| message := "badge unavailable" |}.

Definition failing_badge_env : Env :=
  sample_env [sample_pr "u1" 5 [] []]
    (fun n => if Nat.eqb n 4 then Some badge_failure else None).

(** ** Vocabulary of the specification *)

(** The viewer's own reviews and comments, and their timestamps. *)
Definition viewerReviews (viewer : string) (pullRequest : PullRequest)
  : list Review :=
  List.filter (fun r => String.eqb (login (review_author r)) viewer)
    (reviews pullRequest).

Definition viewerComments (viewer : string) (pullRequest : PullRequest)
  : list Comment :=
  List.filter (fun c => String.eqb (login (comment_author c)) viewer)
    (comments pullRequest).

Definition viewerActivity (viewer : string) (pullRequest : PullRequest)
  : list time :=
  map review_createdAt (viewerReviews viewer pullRequest)
  ++ map comment_createdAt (viewerComments viewer pullRequest).

(** Some review of the viewer has state APPROVED. *)
Definition approvedBy (viewer : string) (pullRequest : PullRequest) : bool :=
  existsb (fun r => String.eqb (state r) "APPROVED")
    (viewerReviews viewer pullRequest).

(** The greatest of the timestamps [l], or [t0] when it is greater. *)
Definition maxTime (t0 : time) (l : list time) : time :=
  fold_right Z.max t0 l.

(** The latest timestamp of a list, if it has one. *)
Definition latest (l : list time) : option time :=
  match l with
  | [] => None
  | t :: l' => Some (maxTime t l')
  end.

(** The same pull request after a later update. *)
Definition withUpdatedAt (t : time) (pr : PullRequest) : PullRequest :=
  {| url := url pr; title := title pr; updatedAt := t;
     reviews := reviews pr; comments := comments pr; author := author pr;
     assignees := assignees pr; reviewRequests := reviewRequests pr |}.

Definition approval (who : Actor) (t : time) : Review :=
  {| review_author := who; review_createdAt := t; state := "APPROVED" |}.

Definition remark (who : Actor) (t : time) : Review :=
  {| review_author := who; review_createdAt := t; state := "COMMENTED" |}.

Definition comment_at (who : Actor) (t : time) : Comment :=
  {| comment_author := who; comment_createdAt := t |}.

(** The relevance rule, spelt out as a proposition. *)
Definition relevant (viewer : string) (p : PullRequest) : Prop :=
  login (author p) <> viewer
  /\ ((exists a, In a (assignees p) /\ login a = viewer)
      \/ (exists rr, In rr (reviewRequests p)
                     /\ requestedReviewer rr = Some viewer)
      \/ (exists r, In r (reviews p) /\ login (review_author r) = viewer)).

(** ** Vocabulary for the runs of the script *)

(** The world after some more logged calls. *)
Definition add_trace (cs : list Call) (w : World) : World :=
  {| storage := storage w; badge := badge w;
     trace := trace w ++ cs; next_address := next_address w |}.

(** An environment in which no call fails. *)
Definition quiet (token : string) (response : Response) : Env :=
  {| env_token := token; env_response := response; faults := fun _ => None |}.

(** No call fails from call number [n] on. *)
Definition quiet_from (env : Env) (n : nat) : Prop :=
  forall k, (n <= k)%nat -> faults env k = None.

(** The notifications created by a sequence of calls: id and message. *)
Definition created (tr : list Call) : list (string * string) :=
  flat_map (fun c => match c with
                     | NotificationsCreate id msg => [(id, msg)]
                     | _ => []
                     end) tr.

(** How many of them carry the id [u]. *)
Definition createdFor (u : string) (tr : list Call) : nat :=
  length (List.filter (fun n => String.eqb (fst n) u) (created tr)).

Definition notification_of (p : object PullRequest) : Call :=
  NotificationsCreate (url (fields p)) (title (fields p)).

(** Section 4.3 of the specification: [priorSeen], [toNotify] and
    [nextSeen]. *)
Definition priorSeen (w : World) : list string :=
  seenUrls (storage w !! "lastSeenPullRequests").

Definition inSeen (prior : list string) (u : string) : bool :=
  existsb (String.eqb u) prior.

Definition toNotify_spec (prior : list string)
  (unreviewed : JSSet PullRequest) : JSSet PullRequest :=
  List.filter (fun p => negb (inSeen prior (url (fields p)))) unreviewed.

Definition nextSeen_spec (unreviewed : JSSet PullRequest) : list string :=
  map (fun p => url (fields p)) unreviewed.

(** The first two steps of a cycle: the token, then [loadPullRequests]. *)
Definition fetchStep : M (string * JSSet PullRequest) :=
  do token <- getGitHubApiToken;
  loadPullRequests token.

(** The steps of a cycle that follow the saving of the unreviewed set. *)
Definition laterSteps (unreviewed : JSSet PullRequest) : M unit :=
  do _ <- updateBadge (set_size unreviewed);
  showNotificationForNewPullRequests unreviewed.

(** What a cycle does with the fetched pull requests: the rest of the
    [try] block of [checkPullRequests]. *)
Definition afterFetch (fetched : string * JSSet PullRequest)
  : M (option Error) :=
  let (login, pullRequests) := fetched in
  let unreviewedPullRequests :=
    excludeReviewedPullRequests login pullRequests in
  do _ <- saveUnreviewedPullRequests unreviewedPullRequests;
  do _ <- updateBadge (set_size unreviewedPullRequests);
  do _ <- showNotificationForNewPullRequests unreviewedPullRequests;
  ret None.

(** A computation that leaves an observation of the world as it was,
    however it ends. *)
Definition unchanged {X A : Type} (f : World -> X) (m : M A) : Prop :=
  forall env w, f (snd (m env w)) = f w.

(** The badge of [showBadgeError]. *)
Definition errorBadge : Badge := {| badge_text := "!"; badge_color := "#000" |}.

(** The order claimed for a cycle: no call that persists a result (a
    storage write or a badge update) comes before a notification. *)
Definition is_persist (c : Call) : bool :=
  match c with
  | StorageSet _ _ | SetBadgeText _ | SetBadgeBackgroundColor _ => true
  | _ => false
  end.

Definition is_notify (c : Call) : bool :=
  match c with
  | NotificationsCreate _ _ => true
  | _ => false
  end.

Fixpoint persists_after_notifying (tr : list Call) : bool :=
  match tr with
  | [] => true
  | c :: tr' =>
      (if is_persist c then negb (existsb is_notify tr') else true)
      && persists_after_notifying tr'
  end.

(** ** Further vocabulary *)

(** The pull request with only the viewer's own reviews and comments. *)
Definition ownActivityOnly (viewer : string) (pr : PullRequest) : PullRequest :=
  {| url := url pr; title := title pr; updatedAt := updatedAt pr;
     reviews := viewerReviews viewer pr; comments := viewerComments viewer pr;
     author := author pr; assignees := assignees pr;
     reviewRequests := reviewRequests pr |}.

(** The pull request with other reviews and comments. *)
Definition withActivity (rs : list Review) (cs : list Comment)
  (pr : PullRequest) : PullRequest :=
  {| url := url pr; title := title pr; updatedAt := updatedAt pr;
     reviews := rs; comments := cs;
     author := author pr; assignees := assignees pr;
     reviewRequests := reviewRequests pr |}.

(** No call fails from call number [a] up to, and without, call number
    [b]. *)
Definition quiet_between (env : Env) (a b : nat) : Prop :=
  forall k, (a <= k < b)%nat -> faults env k = None.

(** The notification of a pull request, as id and message. *)
Definition id_and_message (p : object PullRequest) : string * string :=
  (url (fields p), title (fields p)).

(** An environment in which only the call number 3 fails; in a run of
    [showNotificationForNewPullRequests] from [stale_world] over two new
    pull requests that is the storing of the seen-set. *)
Definition storage_failure : Error := {| message := "storage unavailable" |}.

Definition failing_record_env : Env :=
  sample_env [] (fun n => if Nat.eqb n 3 then Some storage_failure else None).

(** An environment in which only the call number 2 fails; in the same run
    that is the second notification. *)
Definition failing_notification_env : Env :=
  sample_env [] (fun n => if Nat.eqb n 2 then Some storage_failure else None).

Definition two_new : JSSet PullRequest :=
  [Obj 0 (sample_pr "u1" 5 [] []); Obj 1 (sample_pr "u2" 6 [] [])].

(** The badge of [updateBadge]. *)
Definition countBadge (prCount : nat) : Badge :=
  {| badge_text := decimal prCount;
     badge_color := if Nat.eqb prCount 0 then "#4d4" else "#f00" |}.

(** An answer that carries GraphQL errors next to good data, and one with
    an empty array of errors. *)
Definition errors_env (errors : list string) : Env :=
  {| env_token := "t0";
     env_response :=
       {| status := 200;
          body := {| result_errors := Some errors;
                     result_message := Some "ignored";
                     result_data :=
                       Some {| viewer_login := "alice";
                               repositories :=
                                 [{| nameWithOwner := "bob/repo";
                                     pullRequests :=
                                       [sample_pr "u1" 5 [] []] |}] |} |} |};
     faults := fun _ => None |}.

(** A failure status with a message, next to good data. *)
Definition http_failure_env : Env :=
  {| env_token := "t0";
     env_response :=
       {| status := 502;
          body := {| result_errors := None;
                     result_message := Some "Bad gateway";
                     result_data :=
                       Some {| viewer_login := "alice";
                               repositories :=
                                 [{| nameWithOwner := "bob/repo";
                                     pullRequests :=
                                       [sample_pr "u1" 5 [] []] |}] |} |} |};
     faults := fun _ => None |}.

Definition sample_viewer (prs : list PullRequest) : Viewer :=
  {| viewer_login := "alice";
     repositories := [{| nameWithOwner := "bob/repo"; pullRequests := prs |}] |}.

(** ** The list of pull requests of the popup
    (src/components/PullRequestList.tsx) *)

(** The text field for the whitelisted teams is rendered when
    [onlyDirectRequestsToggled] is neither null nor false and the
    [onChangeWhitelistedTeams] callback is given. *)
Definition whitelistedTeamsInputShown (onlyDirectRequestsToggled : option bool)
  (hasOnChangeWhitelistedTeams : bool) : bool :=
  match onlyDirectRequestsToggled with
  | Some true => hasOnChangeWhitelistedTeams
  | Some false | None => false
  end.

(** [handleWhitelistedTeamsChange], the [onBlur] handler of that field, in
    a render whose state is [whitelistedTeams], for an event whose
    [evt.target.value] is [value]: the state of the next render, and the
    arguments of the calls made to [props.onChangeWhitelistedTeams]. The
    handler passes the [whitelistedTeams] of its own render. *)
Definition handleWhitelistedTeamsChange (hasOnChangeWhitelistedTeams : bool)
  (whitelistedTeams : string) (value : string) : string * list string :=
  (value,
   if hasOnChangeWhitelistedTeams then [whitelistedTeams] else []).

(** A series of blur events, each handled in the render that follows the
    one before; the state starts as [useState('')] gives it. *)
Fixpoint handleBlurs (hasOnChangeWhitelistedTeams : bool)
  (whitelistedTeams : string) (values : list string) : string * list string :=
  match values with
  | [] => (whitelistedTeams, [])
  | value :: values' =>
      let '(next, calls) :=
        handleWhitelistedTeamsChange hasOnChangeWhitelistedTeams
          whitelistedTeams value in
      let '(final, calls') :=
        handleBlurs hasOnChangeWhitelistedTeams next values' in
      (final, calls ++ calls')
  end.

(** An environment in which the token cannot be had. *)
Definition token_failure : Error := {| message := "no token" |}.

Definition no_token_env : Env :=
  sample_env [sample_pr "u1" 5 [] []]
    (fun n => if Nat.eqb n 0 then Some token_failure else None).

(** A timestamp the data source can deliver: an instant that is not
    before the epoch.  The accumulator of the classifier starts at the
    epoch itself, time value 0. *)
Definition realTimestamp (t : time) : Prop := 0 <= t.

(** The [try] block of [checkPullRequests]. *)
Definition tryBlock : M (option Error) :=
  do token <- getGitHubApiToken;
  do (login, pullRequests) <- loadPullRequests token;
  let unreviewedPullRequests :=
    excludeReviewedPullRequests login pullRequests in
  do _ <- saveUnreviewedPullRequests unreviewedPullRequests;
  do _ <- updateBadge (set_size unreviewedPullRequests);
  do _ <- showNotificationForNewPullRequests unreviewedPullRequests;
  ret None.

(** * Properties *)

(** ** The classifier *)

Section Classifier.

Variable viewer : string.

Lemma maxTime_acc (l : list time) (c t : time) :
  maxTime (Z.max c t) l = Z.max c (maxTime t l).
Proof.
  induction l as [|x l IH]; simpl; [reflexivity|].
  rewrite IH. lia.
Qed.

Lemma maxTime_app (l1 l2 : list time) (t : time) :
  maxTime t (l1 ++ l2) = maxTime (maxTime t l2) l1.
Proof. unfold maxTime. apply fold_right_app. Qed.

Lemma maxTime_comm (l1 l2 : list time) (t : time) :
  maxTime (maxTime t l1) l2 = maxTime (maxTime t l2) l1.
Proof.
  induction l2 as [|x l2 IH]; simpl; [reflexivity|].
  rewrite IH. clear IH.
  induction l1 as [|y l1 IH]; simpl; [reflexivity|].
  rewrite <- IH. lia.
Qed.

Lemma maxTime_ge_init (l : list time) (t : time) : t <= maxTime t l.
Proof. induction l; simpl; lia. Qed.

Lemma maxTime_ge_elem (l : list time) (t x : time) :
  In x l -> x <= maxTime t l.
Proof.
  induction l as [|y l IH]; simpl; [tauto|].
  intros [->|H]; [lia|]. specialize (IH H). lia.
Qed.

Lemma maxTime_le (l : list time) (t b : time) :
  t <= b -> Forall (fun x => x <= b) l -> maxTime t l <= b.
Proof.
  intros Ht H. induction H; simpl; lia.
Qed.

(** The loop over the reviews computes the latest timestamp of the
    viewer's reviews and whether one of them is an approval. *)
Lemma scanReview_fold (l : list Review) (t : time) (a : bool) :
  fold_left (scanReview viewer) l (t, a)
  = (maxTime t
       (map review_createdAt
          (List.filter (fun r => String.eqb (login (review_author r)) viewer) l)),
     a || existsb (fun r => String.eqb (state r) "APPROVED")
            (List.filter (fun r => String.eqb (login (review_author r)) viewer) l)).
Proof.
  revert t a. induction l as [|r l IH]; intros t a; simpl.
  - now rewrite orb_false_r.
  - destruct (String.eqb (login (review_author r)) viewer) eqn:E; simpl.
    + rewrite IH, maxTime_acc.
      destruct (String.eqb (state r) "APPROVED"); simpl;
        [now rewrite orb_true_r | reflexivity].
    + apply IH.
Qed.

Lemma scanComment_fold (l : list Comment) (t : time) :
  fold_left (scanComment viewer) l t
  = maxTime t
      (map comment_createdAt
         (List.filter (fun c => String.eqb (login (comment_author c)) viewer) l)).
Proof.
  revert t. induction l as [|c l IH]; intros t; simpl; [reflexivity|].
  unfold scanComment at 2.
  destruct (String.eqb (login (comment_author c)) viewer) eqn:E; simpl.
  - now rewrite IH, maxTime_acc.
  - apply IH.
Qed.

(** [isReviewed] in closed form: approved by the viewer, or the latest of
    the viewer's timestamps and of the initial value 0 is after
    [updatedAt]. *)
Lemma isReviewed_closed (pr : PullRequest) :
  isReviewed viewer pr
  = approvedBy viewer pr
    || (maxTime 0 (viewerActivity viewer pr) >? updatedAt pr).
Proof.
  unfold isReviewed, getLastUpdatedTime.
  rewrite scanReview_fold. simpl. rewrite scanComment_fold.
  unfold approvedBy, viewerActivity, viewerReviews, viewerComments.
  now rewrite maxTime_app, maxTime_comm.
Qed.

Lemma latest_maxTime (l : list time) (t u : time) :
  latest l = Some u -> maxTime t l = Z.max t u.
Proof.
  destruct l as [|x l]; simpl; [discriminate|].
  intros [= <-]. clear.
  induction l as [|y l IH]; simpl in *; lia.
Qed.

(** Only pull requests that are not reviewed enter the result of
    [excludeReviewedPullRequests], and only members of its argument. *)
Lemma excludeReviewed_In (s : JSSet PullRequest) (o : object PullRequest) :
  In o (excludeReviewedPullRequests viewer s) ->
  In o s /\ isReviewed viewer (fields o) = false.
Proof.
  unfold excludeReviewedPullRequests.
  assert (G : forall acc,
    (forall x, In x acc -> In x s /\ isReviewed viewer (fields x) = false) ->
    forall l, (forall x, In x l -> In x s) ->
    forall x,
      In x (fold_left
              (fun u p => if negb (isReviewed viewer (fields p))
                          then set_add p u else u) l acc) ->
      In x s /\ isReviewed viewer (fields x) = false).
  { intros acc Hacc l. revert acc Hacc.
    induction l as [|p l IH]; intros acc Hacc Hl x; simpl; [apply Hacc|].
    apply IH; [|intros y Hy; apply Hl; now right].
    intros y. destruct (isReviewed viewer (fields p)) eqn:E; simpl;
      [apply Hacc|].
    unfold set_add. destruct (set_has p acc); [apply Hacc|].
    rewrite in_app_iff. simpl. intros [Hy|[<-|[]]]; [now apply Hacc|].
    split; [apply Hl; now left | exact E]. }
  apply (G [] ltac:(intros x []) s); auto.
Qed.

End Classifier.

(** C1. A pull request with a review of the viewer in state APPROVED is
    never unreviewed, whatever its [updatedAt]: [isUnreviewed] is false
    for it, it stays false when [updatedAt] is moved to any other value,
    and [excludeReviewedPullRequests] never keeps it. *)
Theorem approval_is_durable (viewer : string) (pr : PullRequest) (r : Review) :
  In r (reviews pr) ->
  login (review_author r) = viewer ->
  state r = "APPROVED" ->
  isUnreviewed viewer pr = false
  /\ (forall t, isUnreviewed viewer (withUpdatedAt t pr) = false)
  /\ (forall (s : JSSet PullRequest) (o : object PullRequest),
        fields o = pr -> ~ In o (excludeReviewedPullRequests viewer s)).
Proof.
  intros Hin Hauthor Hstate.
  assert (A : approvedBy viewer pr = true).
  { unfold approvedBy, viewerReviews. apply existsb_exists. exists r. split.
    - apply filter_In. split; [exact Hin|]. now apply String.eqb_eq.
    - now apply String.eqb_eq. }
  assert (R : forall t, isReviewed viewer (withUpdatedAt t pr) = true).
  { intros t. rewrite isReviewed_closed.
    change (approvedBy viewer (withUpdatedAt t pr)) with (approvedBy viewer pr).
    now rewrite A. }
  split; [|split].
  - unfold isUnreviewed. rewrite isReviewed_closed, A. reflexivity.
  - intros t. unfold isUnreviewed. now rewrite R.
  - intros s o Ho Hin'. apply excludeReviewed_In in Hin' as [_ Hrev].
    rewrite Ho, isReviewed_closed, A in Hrev. discriminate.
Qed.

Lemma approval_is_durable_witness :
  let pr := sample_pr "u1" 20 [approval alice 10] [] in
  isUnreviewed "alice" pr = false
  /\ (forall t, isUnreviewed "alice" (withUpdatedAt t pr) = false)
  /\ (forall (s : JSSet PullRequest) (o : object PullRequest),
        fields o = pr -> ~ In o (excludeReviewedPullRequests "alice" s)).
Proof.
  intros pr.
  apply (approval_is_durable "alice" pr (approval alice 10)).
  - simpl. left. reflexivity.
  - reflexivity.
  - reflexivity.
Defined.

(** C2. Without an approval of the viewer: a review or comment of the
    viewer strictly after [updatedAt] makes [isUnreviewed] false; and
    when the latest timestamp of the viewer's reviews and comments is
    equal to [updatedAt], a real timestamp, [isUnreviewed] is true: the
    comparison is strict. *)
Theorem strict_inequality_boundary (viewer : string) (pr : PullRequest) :
  approvedBy viewer pr = false ->
  (forall t, In t (viewerActivity viewer pr) -> t > updatedAt pr ->
     isUnreviewed viewer pr = false)
  /\ (latest (viewerActivity viewer pr) = Some (updatedAt pr) ->
      realTimestamp (updatedAt pr) ->
      isUnreviewed viewer pr = true).
Proof.
  intros A. unfold isUnreviewed. rewrite isReviewed_closed, A. simpl. split.
  - intros t Hin Hgt.
    pose proof (maxTime_ge_elem (viewerActivity viewer pr) 0 t Hin).
    apply negb_false_iff, Z.gtb_lt. lia.
  - intros Hlatest Hreal. unfold realTimestamp in Hreal.
    rewrite (latest_maxTime _ 0 _ Hlatest).
    rewrite negb_true_iff, Z.gtb_ltb, Z.ltb_ge. lia.
Qed.

Lemma strict_inequality_boundary_witness :
  (let pr := sample_pr "u1" 5 [remark alice 7] [] in
   approvedBy "alice" pr = false /\ isUnreviewed "alice" pr = false)
  /\ (let pr := sample_pr "u1" 5 [remark alice 3] [comment_at alice 5] in
      approvedBy "alice" pr = false
      /\ latest (viewerActivity "alice" pr) = Some (updatedAt pr)
      /\ realTimestamp (updatedAt pr)
      /\ isUnreviewed "alice" pr = true).
Proof.
  split.
  - intros pr. split; [reflexivity|].
    apply (proj1 (strict_inequality_boundary "alice" pr eq_refl) 7).
    + simpl. left. reflexivity.
    + simpl. lia.
  - intros pr. split; [reflexivity|]. split; [reflexivity|].
    split; [unfold realTimestamp; simpl; lia|].
    apply (proj2 (strict_inequality_boundary "alice" pr eq_refl)).
    + reflexivity.
    + unfold realTimestamp. simpl. lia.
Defined.

(** C3. A pull request without any review and any comment of the viewer
    is unreviewed, for every real timestamp [updatedAt]: the accumulator
    keeps its initial value, which no real timestamp is before. *)
Theorem no_activity_unreviewed (viewer : string) (pr : PullRequest) :
  viewerReviews viewer pr = [] ->
  viewerComments viewer pr = [] ->
  realTimestamp (updatedAt pr) ->
  isUnreviewed viewer pr = true.
Proof.
  intros Hr Hc Hreal. unfold realTimestamp in Hreal. unfold isUnreviewed.
  rewrite isReviewed_closed. unfold approvedBy, viewerActivity.
  rewrite Hr, Hc. simpl.
  rewrite negb_true_iff, Z.gtb_ltb, Z.ltb_ge. exact Hreal.
Qed.

Lemma no_activity_unreviewed_witness :
  let pr := sample_pr "u1" 5 [remark bob 9] [comment_at bob 8] in
  viewerReviews "alice" pr = []
  /\ viewerComments "alice" pr = []
  /\ realTimestamp (updatedAt pr)
  /\ isUnreviewed "alice" pr = true.
Proof.
  intros pr. split; [reflexivity|]. split; [reflexivity|].
  split; [unfold realTimestamp; simpl; lia|].
  apply (no_activity_unreviewed "alice" pr eq_refl eq_refl).
  unfold realTimestamp. simpl. lia.
Defined.

(** ** Sets of objects and the relevance filter *)

Section Sets.

Context {A : Type}.
Implicit Types (o : object A) (s : JSSet A).

Lemma set_has_app o s1 s2 :
  set_has o (s1 ++ s2) = set_has o s1 || set_has o s2.
Proof. unfold set_has. apply existsb_app. Qed.

Lemma set_has_add o s : set_has o (set_add o s) = true.
Proof.
  unfold set_add. destruct (set_has o s) eqn:E; [exact E|].
  rewrite set_has_app. simpl. rewrite Nat.eqb_refl.
  now rewrite orb_true_r.
Qed.

Lemma set_add_twice o s : set_add o (set_add o s) = set_add o s.
Proof. unfold set_add at 1. now rewrite set_has_add. Qed.

(** A set whose members all have addresses below [n] does not hold an
    object at address [n] or beyond. *)
Lemma set_has_fresh o s (n : nat) :
  (forall x, In x s -> (address x < n)%nat) -> (n <= address o)%nat ->
  set_has o s = false.
Proof.
  intros Hs Ho. unfold set_has.
  induction s as [|x s IH]; simpl; [reflexivity|].
  rewrite IH by (intros y Hy; apply Hs; now right).
  rewrite orb_false_r. apply Nat.eqb_neq.
  specialize (Hs x (or_introl eq_refl)). lia.
Qed.

(** A loop that adds the same object at each matching turn adds it once
    if some turn matches. *)
Lemma fold_add_once {B} (f : JSSet A -> B -> JSSet A) (p : B -> bool) o :
  (forall s x, f s x = if p x then set_add o s else s) ->
  forall (l : list B) s,
    fold_left f l s = if existsb p l then set_add o s else s.
Proof.
  intros Hf l. induction l as [|x l IH]; intros s; simpl; [reflexivity|].
  rewrite Hf. destruct (p x); simpl.
  - rewrite IH, set_add_twice. now destruct (existsb p l).
  - apply IH.
Qed.

(** Filtering freshly made objects into a set, one [add] each. *)
Lemma fold_add_alloc (p : object A -> bool) (l : list A) :
  forall (n : nat) s,
    (forall x, In x s -> (address x < n)%nat) ->
    fold_left (fun s o => if p o then set_add o s else s) (alloc n l) s
    = s ++ List.filter p (alloc n l).
Proof.
  induction l as [|x l IH]; intros n s Hs; simpl.
  - now rewrite app_nil_r.
  - destruct (p (Obj n x)) eqn:E.
    + unfold set_add at 2.
      rewrite (set_has_fresh (Obj n x) s n Hs) by (simpl; lia).
      rewrite IH.
      * now rewrite <- app_assoc.
      * intros y Hy. apply in_app_iff in Hy as [Hy|[<-|[]]]; simpl;
          [specialize (Hs y Hy)|]; lia.
    + apply IH. intros y Hy. specialize (Hs y Hy). lia.
Qed.

End Sets.

Lemma concat_alloc_repositories (rs : list Repository) (n : nat) :
  concat (alloc_repositories n rs) = alloc n (concat (map pullRequests rs)).
Proof.
  revert n. induction rs as [|r rs IH]; intros n; simpl; [reflexivity|].
  rewrite IH. generalize (pullRequests r) as l. clear.
  intros l. revert n. induction l as [|x l IH]; intros n; simpl.
  - now rewrite Nat.add_0_r.
  - f_equal. rewrite <- IH. f_equal. f_equal. lia.
Qed.

Lemma fold_left_concat {S B} (f : S -> B -> S) (ls : list (list B)) (s : S) :
  fold_left (fun s l => fold_left f l s) ls s = fold_left f (concat ls) s.
Proof.
  revert s. induction ls as [|l ls IH]; intros s; simpl; [reflexivity|].
  now rewrite fold_left_app, IH.
Qed.

Section Relevance.

Variable viewer : string.

Lemma relevant_spec_true (p : PullRequest) :
  relevant_spec viewer p = true <-> relevant viewer p.
Proof.
  unfold relevant_spec, relevant.
  rewrite andb_true_iff, !orb_true_iff, negb_true_iff, String.eqb_neq.
  rewrite !existsb_exists.
  split; intros [Ha H]; (split; [exact Ha|]).
  - destruct H as [[[a [Hin E]]|[rr [Hin E]]]|[r [Hin E]]].
    + left. exists a. split; [exact Hin|]. now apply String.eqb_eq.
    + right; left. exists rr. split; [exact Hin|].
      destruct (requestedReviewer rr); [|discriminate].
      apply String.eqb_eq in E. now subst.
    + right; right. exists r. split; [exact Hin|]. now apply String.eqb_eq.
  - destruct H as [[a [Hin E]]|[[rr [Hin E]]|[r [Hin E]]]].
    + left; left. exists a. split; [exact Hin|]. now apply String.eqb_eq.
    + left; right. exists rr. split; [exact Hin|].
      rewrite E. now apply String.eqb_eq.
    + right. exists r. split; [exact Hin|]. now apply String.eqb_eq.
Qed.

(** One turn of the outer loops adds the pull request if and only if it
    is relevant. *)
Lemma selectPullRequest_relevant (s : JSSet PullRequest)
  (o : object PullRequest) :
  selectPullRequest viewer s o
  = if relevant_spec viewer (fields o) then set_add o s else s.
Proof.
  unfold selectPullRequest, relevant_spec.
  destruct (String.eqb (login (author (fields o))) viewer); simpl;
    [reflexivity|].
  unfold addForReviews, addForReviewRequests, addForAssignees.
  rewrite (fold_add_once _
             (fun r => String.eqb (login (review_author r)) viewer) o)
    by reflexivity.
  rewrite (fold_add_once _
             (fun rr => match requestedReviewer rr with
                        | Some l => String.eqb l viewer
                        | None => false
                        end) o)
    by (intros s' rr; now destruct (requestedReviewer rr)).
  rewrite (fold_add_once _ (fun a => String.eqb (login a) viewer) o)
    by reflexivity.
  destruct (existsb _ (assignees (fields o)));
    destruct (existsb _ (reviewRequests (fields o)));
    destruct (existsb _ (reviews (fields o))); simpl;
    now rewrite ?set_add_twice.
Qed.

Lemma selectPullRequests_filter (rs : list Repository) (n : nat) :
  selectPullRequests viewer (alloc_repositories n rs)
  = List.filter (fun o => relevant_spec viewer (fields o))
      (concat (alloc_repositories n rs)).
Proof.
  unfold selectPullRequests.
  rewrite fold_left_concat, concat_alloc_repositories.
  etransitivity;
    [|exact (fold_add_alloc _ _ n [] ltac:(intros x []))].
  generalize (alloc n (concat (map pullRequests rs))) as l.
  generalize (@nil (object PullRequest)) as s.
  intros s l. revert s. induction l as [|o l IH]; intros s; simpl;
    [reflexivity|].
  now rewrite selectPullRequest_relevant, IH.
Qed.

End Relevance.

(** C4. Out of the fetched pull-request nodes, the loops of
    [loadPullRequests] select exactly (each once, in document order)
    those whose author is not the viewer and where the viewer is an
    assignee, a requested reviewer or the author of a review; a node
    authored by the viewer is never selected. *)
Theorem relevance_filter_exact (viewer : string) (rs : list Repository)
  (n : nat) :
  let nodes := concat (alloc_repositories n rs) in
  let selected := selectPullRequests viewer (alloc_repositories n rs) in
  selected = List.filter (fun o => relevant_spec viewer (fields o)) nodes
  /\ (forall o, In o selected <-> In o nodes /\ relevant viewer (fields o))
  /\ (forall o, login (author (fields o)) = viewer -> ~ In o selected).
Proof.
  intros nodes selected. subst nodes selected.
  rewrite selectPullRequests_filter. split; [reflexivity|]. split.
  - intros o. rewrite filter_In, relevant_spec_true. reflexivity.
  - intros o Hauthor Hin. apply filter_In in Hin as [_ Hrel].
    apply relevant_spec_true in Hrel as [Hne _]. contradiction.
Qed.

(** ** Running the script *)

Lemma add_trace_nil (w : World) : add_trace [] w = w.
Proof. destruct w. unfold add_trace. simpl. now rewrite app_nil_r. Qed.

Lemma add_trace_add_trace (a b : list Call) (w : World) :
  add_trace b (add_trace a w) = add_trace (a ++ b) w.
Proof. unfold add_trace. simpl. now rewrite app_assoc. Qed.

Lemma log_call_add_trace (c : Call) (w : World) : log_call c w = add_trace [c] w.
Proof. reflexivity. Qed.

Lemma length_trace_add_trace (cs : list Call) (w : World) :
  length (trace (add_trace cs w)) = (length (trace w) + length cs)%nat.
Proof. simpl. apply length_app. Qed.

Lemma quiet_from_le (env : Env) (n m : nat) :
  quiet_from env n -> (n <= m)%nat -> quiet_from env m.
Proof. intros H Hle k Hk. apply H. lia. Qed.

Lemma quiet_quiet_from (token : string) (response : Response) (n : nat) :
  quiet_from (quiet token response) n.
Proof. intros k _. reflexivity. Qed.

Lemma call_ok {A} (c : Call) (effect : World -> World) (answer : World -> A)
  (env : Env) (w : World) :
  faults env (length (trace w)) = None ->
  call c effect answer env w = (Ok (answer w), effect (log_call c w)).
Proof. intros H. unfold call. now rewrite H. Qed.

Lemma call_throw {A} (c : Call) (effect : World -> World) (answer : World -> A)
  (env : Env) (w : World) (e : Error) :
  faults env (length (trace w)) = Some e ->
  call c effect answer env w = (Throw e, log_call c w).
Proof. intros H. unfold call. now rewrite H. Qed.

(** Membership in the [Set] of last seen urls. *)
Lemma bool_decide_seen (l : list string) (u : string) :
  bool_decide (u ∈ (list_to_set l : gset string)) = inSeen l u.
Proof.
  unfold inSeen. destruct (existsb (String.eqb u) l) eqn:E.
  - apply bool_decide_eq_true_2. apply elem_of_list_to_set, list_elem_of_In.
    apply existsb_exists in E as [x [Hin Hx]].
    apply String.eqb_eq in Hx. now subst.
  - apply bool_decide_eq_false_2. intros H.
    apply elem_of_list_to_set, list_elem_of_In in H.
    assert (T : existsb (String.eqb u) l = true).
    { apply existsb_exists. exists u. split; [exact H|]. apply String.eqb_refl. }
    congruence.
Qed.

(** The loop of [showNotificationForNewPullRequests], when no call fails:
    one notification for each pull request that was not seen. *)
Lemma notify_loop_run (env : Env) (prior : list string)
  (prs : JSSet PullRequest) :
  forall w, quiet_from env (length (trace w)) ->
    for_each
      (fun pullRequest =>
         if negb (bool_decide
                    (url (fields pullRequest)
                       ∈ (list_to_set prior : gset string)))
         then showNotification pullRequest
         else ret tt)
      prs env w
    = (Ok tt, add_trace (map notification_of (toNotify_spec prior prs)) w).
Proof.
  induction prs as [|p prs IH]; intros w Hq; simpl.
  - unfold ret. now rewrite add_trace_nil.
  - unfold bind. rewrite bool_decide_seen.
    destruct (inSeen prior (url (fields p))); simpl.
    + unfold ret at 1. apply IH, Hq.
    + unfold showNotification, notifications_create.
      rewrite call_ok by (apply Hq; lia).
      rewrite IH.
      * rewrite log_call_add_trace, add_trace_add_trace. reflexivity.
      * eapply quiet_from_le; [exact Hq|]. simpl. rewrite length_app. lia.
Qed.

Lemma showNotifications_run (env : Env) (prs : JSSet PullRequest) (w : World) :
  quiet_from env (length (trace w)) ->
  showNotificationForNewPullRequests prs env w
  = (Ok tt,
     set_storage "lastSeenPullRequests" (VUrls (nextSeen_spec prs))
       (add_trace
          (StorageGet "lastSeenPullRequests"
           :: map notification_of (toNotify_spec (priorSeen w) prs)
           ++ [StorageSet "lastSeenPullRequests" (VUrls (nextSeen_spec prs))])
          w)).
Proof.
  intros Hq.
  unfold showNotificationForNewPullRequests, getLastSeenPullRequestsUrls,
    storage_get, bind.
  rewrite call_ok by (apply Hq; lia). unfold ret at 1.
  rewrite notify_loop_run
    by (eapply quiet_from_le; [exact Hq|]; simpl; rewrite length_app; lia).
  unfold unawaited, recordSeenPullRequests, storage_set.
  rewrite call_ok
    by (apply Hq; rewrite length_trace_add_trace; simpl;
        rewrite length_app; lia).
  simpl. rewrite !log_call_add_trace, !add_trace_add_trace. reflexivity.
Qed.

(** ** The dedup step *)

Lemma created_app (a b : list Call) : created (a ++ b) = created a ++ created b.
Proof. unfold created. apply flat_map_app. Qed.

Lemma created_notifications (l : JSSet PullRequest) :
  created (map notification_of l)
  = map (fun p => (url (fields p), title (fields p))) l.
Proof. induction l as [|p l IH]; simpl; [reflexivity|]. now rewrite IH. Qed.

Lemma inSeen_In (prior : list string) (u : string) :
  inSeen prior u = true <-> In u prior.
Proof.
  unfold inSeen. rewrite existsb_exists. split.
  - intros [x [Hin Hx]]. apply String.eqb_eq in Hx. now subst.
  - intros Hin. exists u. split; [exact Hin|]. apply String.eqb_refl.
Qed.

Lemma toNotify_spec_In (prior : list string) (unreviewed : JSSet PullRequest)
  (p : object PullRequest) :
  In p (toNotify_spec prior unreviewed)
  <-> In p unreviewed /\ ~ In (url (fields p)) prior.
Proof.
  unfold toNotify_spec. rewrite filter_In, negb_true_iff.
  rewrite <- inSeen_In, not_true_iff_false. reflexivity.
Qed.

Lemma toNotify_spec_count (prior : list string)
  (unreviewed : JSSet PullRequest) (u : string) :
  length
    (List.filter (fun n => String.eqb (fst n) u)
       (map (fun p => (url (fields p), title (fields p)))
          (toNotify_spec prior unreviewed)))
  = if inSeen prior u then 0%nat
    else length (List.filter (fun p => String.eqb (url (fields p)) u)
                   unreviewed).
Proof.
  unfold toNotify_spec.
  induction unreviewed as [|p l IH]; simpl.
  - now destruct (inSeen prior u).
  - destruct (String.eqb (url (fields p)) u) eqn:E.
    + pose proof E as E'. apply String.eqb_eq in E'. rewrite E'.
      destruct (inSeen prior u) eqn:S; simpl; [exact IH|].
      rewrite E. simpl. now rewrite IH.
    + destruct (inSeen prior (url (fields p))); simpl; [exact IH|].
      rewrite E. exact IH.
Qed.

Lemma toNotify_spec_nextSeen (unreviewed : JSSet PullRequest) :
  toNotify_spec (nextSeen_spec unreviewed) unreviewed = [].
Proof.
  unfold toNotify_spec.
  assert (G : forall l : JSSet PullRequest,
    (forall p, In p l -> In (url (fields p)) (nextSeen_spec unreviewed)) ->
    List.filter
      (fun p => negb (inSeen (nextSeen_spec unreviewed) (url (fields p)))) l
    = []).
  { induction l as [|p l IH]; intros H; simpl; [reflexivity|].
    rewrite (proj2 (inSeen_In _ _) (H p (or_introl eq_refl))). simpl.
    apply IH. intros q Hq. apply H. now right. }
  apply G. intros p Hp. unfold nextSeen_spec.
  now apply (in_map (fun p => url (fields p))).
Qed.

(** C5. With the list [prior] of urls stored as the seen-set, the dedup
    step ends normally and creates a notification exactly for the
    unreviewed items whose url is not in [prior]: one per such item, in
    the order of the set, and none for an item whose url is in [prior];
    so the number of notifications with a given id is 0 when that url is
    in [prior] and the number of unreviewed items with that url
    otherwise. *)
Theorem dedup_notifies_exactly_new (token : string) (response : Response)
  (w : World) (unreviewed : JSSet PullRequest) (prior : list string) :
  storage w !! "lastSeenPullRequests" = Some (VUrls prior) ->
  let run :=
    showNotificationForNewPullRequests unreviewed (quiet token response) w in
  let new_calls := drop (length (trace w)) (trace (snd run)) in
  fst run = Ok tt
  /\ created new_calls
     = map (fun p => (url (fields p), title (fields p)))
         (List.filter (fun p => negb (existsb (String.eqb (url (fields p))) prior))
            unreviewed)
  /\ (forall p, In (url (fields p), title (fields p)) (created new_calls)
                <-> exists q, In q unreviewed
                              /\ ~ In (url (fields q)) prior
                              /\ url (fields q) = url (fields p)
                              /\ title (fields q) = title (fields p))
  /\ (forall p, In p unreviewed -> In (url (fields p)) prior ->
                createdFor (url (fields p)) new_calls = 0%nat)
  /\ (forall u, createdFor u new_calls
                = if existsb (String.eqb u) prior then 0%nat
                  else length
                         (List.filter
                            (fun p => String.eqb (url (fields p)) u)
                            unreviewed)).
Proof.
  intros Hprior run new_calls. subst run new_calls.
  rewrite showNotifications_run by apply quiet_quiet_from.
  assert (P : priorSeen w = prior) by (unfold priorSeen; now rewrite Hprior).
  rewrite P.
  simpl fst. simpl snd. unfold set_storage, add_trace. simpl trace.
  rewrite drop_app_length.
  assert (C : created
                (StorageGet "lastSeenPullRequests"
                 :: map notification_of (toNotify_spec prior unreviewed)
                 ++ [StorageSet "lastSeenPullRequests"
                       (VUrls (nextSeen_spec unreviewed))])
              = map (fun p => (url (fields p), title (fields p)))
                  (toNotify_spec prior unreviewed)).
  { change (created (?c :: ?l)) with (created l).
    rewrite created_app, created_notifications. simpl. apply app_nil_r. }
  assert (K : forall u,
             createdFor u
               (StorageGet "lastSeenPullRequests"
                :: map notification_of (toNotify_spec prior unreviewed)
                ++ [StorageSet "lastSeenPullRequests"
                      (VUrls (nextSeen_spec unreviewed))])
             = if existsb (String.eqb u) prior then 0%nat
               else length
                      (List.filter
                         (fun p => String.eqb (url (fields p)) u)
                         unreviewed)).
  { intros u. unfold createdFor. rewrite C. apply toNotify_spec_count. }
  split; [reflexivity|]. split; [exact C|]. split; [|split].
  - intros p. rewrite C, in_map_iff. split.
    + intros [q [Hq Hin]]. apply toNotify_spec_In in Hin as [Hin Hnew].
      injection Hq as Hu Ht. now exists q.
    + intros [q [Hin [Hnew [Hu Ht]]]]. exists q. split.
      * now rewrite Hu, Ht.
      * apply toNotify_spec_In. now split.
  - intros p _ Hseen. rewrite K.
    apply (inSeen_In prior (url (fields p))) in Hseen.
    unfold inSeen in Hseen. now rewrite Hseen.
  - exact K.
Qed.

Lemma dedup_notifies_exactly_new_witness :
  let unreviewed :=
    [Obj 0 (sample_pr "u0" 1 [] []); Obj 1 (sample_pr "u1" 5 [] [])] in
  let run :=
    showNotificationForNewPullRequests unreviewed
      (quiet "t0" (env_response failing_env)) stale_world in
  storage stale_world !! "lastSeenPullRequests" = Some (VUrls ["u0"])
  /\ fst run = Ok tt
  /\ created (drop (length (trace stale_world)) (trace (snd run)))
     = [("u1", "Fix it")].
Proof.
  intros unreviewed run. split; [reflexivity|].
  destruct (dedup_notifies_exactly_new "t0" (env_response failing_env)
              stale_world unreviewed ["u0"] eq_refl)
    as [Hrun [Hcreated _]].
  split; [exact Hrun | exact Hcreated].
Defined.

(** C6. Whatever the prior seen-set and whatever was notified, the
    seen-set stored by the dedup step is the list of the urls of all the
    items of the unreviewed set; an item that was already seen and is
    still unreviewed is in it. *)
Theorem nextSeen_is_whole_unreviewed_set (token : string)
  (response : Response) (w : World) (unreviewed : JSSet PullRequest) :
  let w' :=
    snd (showNotificationForNewPullRequests unreviewed
           (quiet token response) w) in
  storage w' !! "lastSeenPullRequests"
  = Some (VUrls (map (fun p => url (fields p)) unreviewed))
  /\ priorSeen w' = nextSeen_spec unreviewed
  /\ (forall p, In p unreviewed -> In (url (fields p)) (priorSeen w')).
Proof.
  intros w'. subst w'.
  rewrite showNotifications_run by apply quiet_quiet_from.
  simpl snd. unfold priorSeen, set_storage. simpl storage.
  rewrite lookup_insert_eq. simpl.
  split; [reflexivity|]. split; [reflexivity|].
  intros p Hp. now apply (in_map (fun p => url (fields p))).
Qed.

(** C7. Round trip: when the seen-set stored by one run of the dedup step
    is the prior seen-set of the next run, over the same unreviewed set,
    the next run has nothing to notify and creates no notification. *)
Theorem roundtrip_notifies_nothing (token token' : string)
  (response response' : Response) (w : World)
  (unreviewed : JSSet PullRequest) :
  let w1 :=
    snd (showNotificationForNewPullRequests unreviewed
           (quiet token response) w) in
  let run2 :=
    showNotificationForNewPullRequests unreviewed
      (quiet token' response') w1 in
  fst run2 = Ok tt
  /\ toNotify_spec (priorSeen w1) unreviewed = []
  /\ created (drop (length (trace w1)) (trace (snd run2))) = [].
Proof.
  intros w1 run2.
  assert (P : priorSeen w1 = nextSeen_spec unreviewed).
  { subst w1. rewrite showNotifications_run by apply quiet_quiet_from.
    simpl snd. unfold priorSeen, set_storage. simpl storage.
    now rewrite lookup_insert_eq. }
  subst run2. rewrite showNotifications_run by apply quiet_quiet_from.
  rewrite P, toNotify_spec_nextSeen.
  simpl fst. simpl snd. unfold set_storage, add_trace. simpl trace.
  rewrite drop_app_length.
  split; [reflexivity|]. split; reflexivity.
Qed.

(** ** What a computation leaves unchanged *)

Section Unchanged.

Context {X : Type} (f : World -> X).

Lemma unchanged_ret {A} (a : A) : unchanged f (ret a).
Proof. intros env w. reflexivity. Qed.

Lemma unchanged_throw {A} (e : Error) : unchanged f (@throw A e).
Proof. intros env w. reflexivity. Qed.

Lemma unchanged_bind {A B} (m : M A) (k : A -> M B) :
  unchanged f m -> (forall a, unchanged f (k a)) -> unchanged f (bind m k).
Proof.
  intros Hm Hk env w. unfold bind.
  specialize (Hm env w). destruct (m env w) as [[a|e] w1]; simpl in *.
  - now rewrite Hk.
  - exact Hm.
Qed.

Lemma unchanged_call {A} (c : Call) (effect : World -> World)
  (answer : World -> A) :
  (forall w, f (log_call c w) = f w) ->
  (forall w, f (effect w) = f w) ->
  unchanged f (call c effect answer).
Proof.
  intros Hlog Heff env w. unfold call.
  destruct (faults env (length (trace w))); simpl.
  - apply Hlog.
  - now rewrite Heff.
Qed.

Lemma unchanged_env {A} (m : Env -> M A) :
  (forall env, unchanged f (m env)) -> unchanged f (fun env => m env env).
Proof. intros H env w. apply H. Qed.

Lemma unchanged_unawaited (m : M unit) :
  unchanged f m -> unchanged f (unawaited m).
Proof. intros H env w. apply H. Qed.

Lemma unchanged_for_each {A} (body : A -> M unit) (l : list A) :
  (forall x, unchanged f (body x)) -> unchanged f (for_each body l).
Proof.
  intros H. induction l as [|x l IH]; simpl.
  - apply unchanged_ret.
  - apply unchanged_bind; [apply H | intros _; exact IH].
Qed.

End Unchanged.

(** The fetch step only talks to the data source: it changes neither the
    storage nor the badge. *)
Lemma fetchStep_unchanged {X} (f : World -> X) :
  (forall c w, f (log_call c w) = f w) ->
  (forall n w, f (reserve n w) = f w) ->
  unchanged f fetchStep.
Proof.
  intros Hlog Hres. unfold fetchStep.
  apply unchanged_bind.
  { unfold getGitHubApiToken.
    apply (unchanged_env f (fun env => call GetToken _ _)).
    intros env. apply unchanged_call; [apply Hlog | reflexivity]. }
  intros token. unfold loadPullRequests.
  apply unchanged_bind.
  { unfold fetch.
    apply (unchanged_env f (fun env => call (Fetch token) _ _)).
    intros env. apply unchanged_call; [apply Hlog | reflexivity]. }
  intros data. apply unchanged_bind.
  { unfold json. apply unchanged_call; [apply Hlog | apply Hres]. }
  intros parsed.
  destruct (result_errors (result parsed)) as [[|first rest]|];
    try apply unchanged_throw.
  destruct (negb (status data =? 200)
            && truthy (result_message (result parsed)));
    [apply unchanged_throw|].
  destruct (result_data (result parsed));
    [apply unchanged_ret | apply unchanged_throw].
Qed.

(** The steps after the saving of the unreviewed set do not touch what
    was saved. *)
Lemma laterSteps_unchanged (unreviewed : JSSet PullRequest) :
  unchanged (fun w => storage w !! "unreviewedPullRequests")
    (laterSteps unreviewed).
Proof.
  unfold laterSteps. apply unchanged_bind.
  { unfold updateBadge. apply unchanged_bind; [|intros _];
      apply unchanged_call; reflexivity. }
  intros _. unfold showNotificationForNewPullRequests.
  apply unchanged_bind.
  { unfold getLastSeenPullRequestsUrls. apply unchanged_bind.
    - apply unchanged_call; reflexivity.
    - intros v. apply unchanged_ret. }
  intros urls. apply unchanged_bind.
  { apply unchanged_for_each. intros p.
    destruct (negb _); [|apply unchanged_ret].
    apply unchanged_call; reflexivity. }
  intros _. apply unchanged_unawaited. apply unchanged_call.
  - reflexivity.
  - intros w. simpl. now rewrite lookup_insert_ne.
Qed.

(** ** The cycle *)

Lemma bind_ok {A B} (m : M A) (k : A -> M B) (env : Env) (w w1 : World)
  (a : A) :
  m env w = (Ok a, w1) -> bind m k env w = k a env w1.
Proof. intros H. unfold bind. now rewrite H. Qed.

Lemma bind_throw {A B} (m : M A) (k : A -> M B) (env : Env) (w w1 : World)
  (e : Error) :
  m env w = (Throw e, w1) -> bind m k env w = (Throw e, w1).
Proof. intros H. unfold bind. now rewrite H. Qed.

Lemma bind_assoc {A B C} (m : M A) (k : A -> M B) (h : B -> M C)
  (env : Env) (w : World) :
  bind (bind m k) h env w = bind m (fun a => bind (k a) h) env w.
Proof.
  unfold bind. destruct (m env w) as [[a|e] w1]; reflexivity.
Qed.

Lemma bind_ext_l {A B} (m m' : M A) (k : A -> M B) (env : Env) (w : World) :
  (forall env w, m env w = m' env w) -> bind m k env w = bind m' k env w.
Proof. intros H. unfold bind. now rewrite H. Qed.

Lemma try_catch_ext {A} (body body' : M A) (handler : Error -> M A)
  (env : Env) (w : World) :
  (forall env w, body env w = body' env w) ->
  try_catch body handler env w = try_catch body' handler env w.
Proof. intros H. unfold try_catch. now rewrite H. Qed.

(** [checkPullRequests], with its [try] block cut after the fetch step. *)
Lemma checkPullRequests_steps (env : Env) (w : World) :
  checkPullRequests env w
  = (do error <-
       try_catch
         (do fetched <- fetchStep; afterFetch fetched)
         (fun e => do _ <- showBadgeError; ret (Some e));
     storage_set "error"
       (match error with
        | Some e => VString (message e)
        | None => VNull
        end)) env w.
Proof.
  unfold checkPullRequests. apply bind_ext_l. clear. intros env w.
  apply try_catch_ext. clear. intros env w.
  unfold fetchStep. rewrite bind_assoc. reflexivity.
Qed.

Ltac quiet_step Hq :=
  first
    [ apply Hq
    | eapply quiet_from_le; [exact Hq|] ];
  simpl; rewrite ?length_app; simpl; lia.

Lemma showBadgeError_run (env : Env) (w : World) :
  quiet_from env (length (trace w)) ->
  showBadgeError env w
  = (Ok tt,
     set_badge_color "#000"
       (log_call (SetBadgeBackgroundColor "#000")
          (set_badge_text "!" (log_call (SetBadgeText "!") w)))).
Proof.
  intros Hq. unfold showBadgeError, setBadgeText, setBadgeBackgroundColor, bind.
  rewrite call_ok by quiet_step Hq.
  rewrite call_ok by quiet_step Hq.
  reflexivity.
Qed.

(** The error path of a cycle: when the [try] block throws [e] and the
    calls of the error path themselves go through, the cycle ends
    normally, with the error badge and the message of [e] stored; the
    rest of the storage is as the [try] block left it. *)
Lemma error_path (body : M (option Error)) (env : Env) (w w1 : World)
  (e : Error) :
  body env w = (Throw e, w1) ->
  quiet_from env (length (trace w1)) ->
  exists w',
    (do error <-
       try_catch body (fun e => do _ <- showBadgeError; ret (Some e));
     storage_set "error"
       (match error with
        | Some e => VString (message e)
        | None => VNull
        end)) env w
    = (Ok tt, w')
    /\ badge w' = errorBadge
    /\ storage w' = <["error" := VString (message e)]> (storage w1)
    /\ trace w'
       = trace w1
         ++ [SetBadgeText "!"; SetBadgeBackgroundColor "#000";
             StorageSet "error" (VString (message e))].
Proof.
  intros Hbody Hq. eexists. split.
  - unfold bind at 1. unfold try_catch. rewrite Hbody.
    unfold bind at 1. rewrite showBadgeError_run by exact Hq.
    unfold ret. unfold storage_set. rewrite call_ok by quiet_step Hq.
    reflexivity.
  - simpl. split; [reflexivity|]. split; [reflexivity|].
    now rewrite <- !app_assoc.
Qed.

(** C8. When the fetch step of a cycle fails with [e] (the token cannot
    be had, the request fails, or the answer is an error), and the calls
    of the error path go through, [checkPullRequests] ends normally: the
    badge is the error indicator, the stored [error] is the message of
    [e], and the stored [unreviewedPullRequests] is what it was before
    the cycle. *)
Theorem fetch_failure_is_contained (env : Env) (w w1 : World) (e : Error) :
  fetchStep env w = (Throw e, w1) ->
  quiet_from env (length (trace w1)) ->
  exists w',
    checkPullRequests env w = (Ok tt, w')
    /\ badge w' = errorBadge
    /\ storage w' !! "error" = Some (VString (message e))
    /\ storage w' !! "unreviewedPullRequests"
       = storage w !! "unreviewedPullRequests".
Proof.
  intros Hfetch Hq.
  destruct (error_path (do fetched <- fetchStep; afterFetch fetched)
              env w w1 e (bind_throw _ _ _ _ _ _ Hfetch) Hq)
    as [w' [Hrun [Hbadge [Hstorage _]]]].
  exists w'. rewrite checkPullRequests_steps.
  split; [exact Hrun|]. split; [exact Hbadge|].
  rewrite Hstorage. split.
  - apply lookup_insert_eq.
  - rewrite lookup_insert_ne by discriminate.
    pose proof (fetchStep_unchanged storage
                  (fun _ _ => eq_refl) (fun _ _ => eq_refl) env w) as U.
    rewrite Hfetch in U. simpl in U. now rewrite U.
Qed.

(** C10. When the fetch step succeeds and the unreviewed set of this
    cycle has been saved, but a later step of the [try] block (the badge
    update or the notification phase) fails with [e], and the calls of
    the error path go through, the cycle ends normally with the message of
    [e] stored and the error badge, and the stored
    [unreviewedPullRequests] is the unreviewed set computed in this
    cycle. *)
Theorem late_failure_keeps_new_unreviewed_set (env : Env)
  (w w1 w2 w3 : World) (login : string) (pullRequests : JSSet PullRequest)
  (e : Error) :
  let unreviewed := excludeReviewedPullRequests login pullRequests in
  fetchStep env w = (Ok (login, pullRequests), w1) ->
  saveUnreviewedPullRequests unreviewed env w1 = (Ok tt, w2) ->
  laterSteps unreviewed env w2 = (Throw e, w3) ->
  quiet_from env (length (trace w3)) ->
  exists w',
    checkPullRequests env w = (Ok tt, w')
    /\ storage w' !! "error" = Some (VString (message e))
    /\ badge w' = errorBadge
    /\ storage w' !! "unreviewedPullRequests"
       = Some (VPulls (map fields unreviewed)).
Proof.
  intros unreviewed Hfetch Hsave Hlater Hq.
  assert (Hbody : (do fetched <- fetchStep; afterFetch fetched) env w
                  = (Throw e, w3)).
  { rewrite (bind_ok _ _ _ _ _ _ Hfetch). unfold afterFetch.
    fold unreviewed. rewrite (bind_ok _ _ _ _ _ _ Hsave).
    rewrite <- (bind_assoc (updateBadge (set_size unreviewed))
                  (fun _ => showNotificationForNewPullRequests unreviewed)
                  (fun _ => ret None)).
    apply bind_throw. exact Hlater. }
  destruct (error_path _ env w w3 e Hbody Hq)
    as [w' [Hrun [Hbadge [Hstorage _]]]].
  exists w'. rewrite checkPullRequests_steps.
  split; [exact Hrun|]. rewrite Hstorage.
  split; [apply lookup_insert_eq|]. split; [exact Hbadge|].
  rewrite lookup_insert_ne by discriminate.
  pose proof (laterSteps_unchanged unreviewed env w2) as U.
  rewrite Hlater in U. simpl in U. rewrite U.
  unfold saveUnreviewedPullRequests, storage_set, call in Hsave.
  destruct (faults env (length (trace w1))); [discriminate|].
  injection Hsave as <-. simpl. apply lookup_insert_eq.
Qed.

Lemma fetch_failure_is_contained_witness :
  fetchStep failing_env stale_world
  = (Throw {| message := "Bad credentials" |},
     snd (fetchStep failing_env stale_world))
  /\ exists w',
       checkPullRequests failing_env stale_world = (Ok tt, w')
       /\ badge w' = errorBadge
       /\ storage w' !! "error" = Some (VString "Bad credentials")
       /\ storage w' !! "unreviewedPullRequests"
          = storage stale_world !! "unreviewedPullRequests".
Proof.
  split; [reflexivity|].
  apply (fetch_failure_is_contained failing_env stale_world
           (snd (fetchStep failing_env stale_world))
           {| message := "Bad credentials" |}).
  - reflexivity.
  - intros k _. reflexivity.
Defined.

Lemma late_failure_keeps_new_unreviewed_set_witness :
  let unreviewed := [Obj 0 (sample_pr "u1" 5 [] [])] in
  storage stale_world !! "unreviewedPullRequests"
  = Some (VPulls [sample_pr "u0" 1 [] []])
  /\ exists w',
       checkPullRequests failing_badge_env stale_world = (Ok tt, w')
       /\ storage w' !! "error" = Some (VString "badge unavailable")
       /\ badge w' = errorBadge
       /\ storage w' !! "unreviewedPullRequests"
          = Some (VPulls (map fields unreviewed)).
Proof.
  intros unreviewed. split; [reflexivity|].
  pose (w1 := snd (fetchStep failing_badge_env stale_world)).
  pose (w2 := snd (saveUnreviewedPullRequests unreviewed failing_badge_env w1)).
  pose (w3 := snd (laterSteps unreviewed failing_badge_env w2)).
  apply (late_failure_keeps_new_unreviewed_set failing_badge_env
           stale_world w1 w2 w3 "alice"
           [Obj 0 (sample_pr "u1" 5 [] [])] badge_failure).
  - reflexivity.
  - reflexivity.
  - reflexivity.
  - intros k Hk. simpl in Hk. unfold failing_badge_env, sample_env. simpl.
    destruct k as [|[|[|[|[|k]]]]]; try lia. reflexivity.
Defined.

(** ** The order of the calls of a cycle *)

(** The fetch step on a good answer, when no call fails. *)
Lemma fetchStep_run (env : Env) (w : World) (v : Viewer) :
  quiet_from env (length (trace w)) ->
  result_errors (body (env_response env)) = None ->
  negb (status (env_response env) =? 200)
  && truthy (result_message (body (env_response env))) = false ->
  result_data (body (env_response env)) = Some v ->
  fetchStep env w
  = (Ok (viewer_login v,
         selectPullRequests (viewer_login v)
           (alloc_repositories (next_address w) (repositories v))),
     reserve (node_count (body (env_response env)))
       (add_trace [GetToken; Fetch (env_token env); Json] w)).
Proof.
  intros Hq Herrors Hstatus Hdata.
  unfold fetchStep, getGitHubApiToken, loadPullRequests, fetch, json.
  unfold bind at 1. rewrite call_ok by quiet_step Hq.
  unfold bind at 1. rewrite call_ok by quiet_step Hq.
  unfold bind at 1. rewrite call_ok by quiet_step Hq.
  cbn [result first_address]. rewrite Herrors, Hstatus, Hdata.
  unfold ret.
  rewrite !log_call_add_trace, !add_trace_add_trace. reflexivity.
Qed.

(** C9, as stated, fails: in the cycle below, which ends normally, the
    unreviewed set is stored by the call number 3 and the badge is set by
    the calls number 4 and 5, all before the notification, the call
    number 7. *)
Lemma persist_after_notify_counterexample :
  let run :=
    checkPullRequests
      (sample_env [sample_pr "u1" 5 [] []] (fun _ => None)) empty_world in
  fst run = Ok tt
  /\ trace (snd run) !! 3%nat
     = Some (StorageSet "unreviewedPullRequests"
               (VPulls [sample_pr "u1" 5 [] []]))
  /\ trace (snd run) !! 4%nat = Some (SetBadgeText "1")
  /\ trace (snd run) !! 7%nat = Some (NotificationsCreate "u1" "Fix it")
  /\ persists_after_notifying (trace (snd run)) = false.
Proof. vm_compute. repeat split. Qed.

(** C9, amended. A cycle in which the data source answers well (no
    [errors], not a failure status with a message, and some data) and no
    call fails ends normally, and its calls are, in this order: the
    token, the fetch and its parsing; the storing of the unreviewed set,
    which is the classifier applied to the relevance filter applied to
    the fetched nodes; the two badge updates; the reading of the prior
    seen-set; one notification per new item; the storing of the next
    seen-set; the storing of the (null) error field. *)
Theorem cycle_call_order (env : Env) (w : World) (v : Viewer) :
  quiet_from env (length (trace w)) ->
  result_errors (body (env_response env)) = None ->
  negb (status (env_response env) =? 200)
  && truthy (result_message (body (env_response env))) = false ->
  result_data (body (env_response env)) = Some v ->
  let unreviewed :=
    excludeReviewedPullRequests (viewer_login v)
      (selectPullRequests (viewer_login v)
         (alloc_repositories (next_address w) (repositories v))) in
  exists w',
    checkPullRequests env w = (Ok tt, w')
    /\ trace w'
       = trace w
         ++ [GetToken; Fetch (env_token env); Json;
             StorageSet "unreviewedPullRequests"
               (VPulls (map fields unreviewed));
             SetBadgeText (decimal (set_size unreviewed));
             SetBadgeBackgroundColor
               (if Nat.eqb (set_size unreviewed) 0 then "#4d4" else "#f00");
             StorageGet "lastSeenPullRequests"]
         ++ map notification_of (toNotify_spec (priorSeen w) unreviewed)
         ++ [StorageSet "lastSeenPullRequests"
               (VUrls (nextSeen_spec unreviewed));
             StorageSet "error" VNull].
Proof.
  intros Hq Herrors Hstatus Hdata unreviewed.
  eexists. split.
  - rewrite checkPullRequests_steps.
    unfold bind at 1. unfold try_catch.
    rewrite (bind_ok _ _ _ _ _ _ (fetchStep_run env w v Hq Herrors Hstatus Hdata)).
    unfold afterFetch. fold unreviewed.
    unfold saveUnreviewedPullRequests, storage_set, updateBadge,
      setBadgeText, setBadgeBackgroundColor.
    unfold bind at 1. rewrite call_ok by quiet_step Hq.
    unfold bind at 1. unfold bind at 1. rewrite call_ok by quiet_step Hq.
    rewrite call_ok by quiet_step Hq.
    unfold bind at 1. rewrite showNotifications_run by quiet_step Hq.
    unfold ret. rewrite call_ok by quiet_step Hq.
    reflexivity.
  - unfold priorSeen. simpl.
    rewrite lookup_insert_ne by discriminate.
    rewrite <- !app_assoc. simpl. rewrite <- app_assoc. reflexivity.
Qed.

Lemma cycle_call_order_witness :
  let env := sample_env [sample_pr "u1" 5 [] []] (fun _ => None) in
  exists w',
    checkPullRequests env empty_world = (Ok tt, w')
    /\ trace w'
       = [GetToken; Fetch "t0"; Json;
          StorageSet "unreviewedPullRequests"
            (VPulls [sample_pr "u1" 5 [] []]);
          SetBadgeText "1"; SetBadgeBackgroundColor "#f00";
          StorageGet "lastSeenPullRequests";
          NotificationsCreate "u1" "Fix it";
          StorageSet "lastSeenPullRequests" (VUrls ["u1"]);
          StorageSet "error" VNull].
Proof.
  intros env.
  apply (cycle_call_order env empty_world
           {| viewer_login := "alice";
              repositories := [{| nameWithOwner := "bob/repo";
                                  pullRequests := [sample_pr "u1" 5 [] []] |}] |}).
  - intros k _. reflexivity.
  - reflexivity.
  - reflexivity.
  - reflexivity.
Defined.

(** * Further properties of the script *)

(** ** The classifier, exactly *)

Lemma maxTime_le_iff (l : list time) (t b : time) :
  maxTime t l <= b <-> t <= b /\ Forall (fun x => x <= b) l.
Proof.
  induction l as [|x l IH]; simpl.
  - split; [intros H; split; [exact H | constructor] | tauto].
  - rewrite Forall_cons. split.
    + intros H. assert (H' : maxTime t l <= b) by lia.
      apply IH in H' as [Ht Hl]. repeat split; try assumption. lia.
    + intros [Ht [Hx Hl]]. pose proof (proj2 IH (conj Ht Hl)). lia.
Qed.

(** X1. A pull request is unreviewed exactly when the viewer has not
    approved it, its [updatedAt] is not before the epoch, and none of the
    viewer's reviews and comments is later than [updatedAt]. *)
Theorem isUnreviewed_exactly (viewer : string) (pr : PullRequest) :
  isUnreviewed viewer pr = true
  <-> approvedBy viewer pr = false
      /\ 0 <= updatedAt pr
      /\ Forall (fun t => t <= updatedAt pr) (viewerActivity viewer pr).
Proof.
  unfold isUnreviewed. rewrite isReviewed_closed, negb_true_iff, orb_false_iff.
  rewrite Z.gtb_ltb, Z.ltb_ge, maxTime_le_iff. reflexivity.
Qed.

Lemma filter_twice {A} (p : A -> bool) (l : list A) :
  List.filter p (List.filter p l) = List.filter p l.
Proof.
  induction l as [|x l IH]; simpl; [reflexivity|].
  destruct (p x) eqn:E; simpl; [rewrite E; now f_equal | exact IH].
Qed.

(** X2. Only the viewer's own reviews and comments count: dropping every
    review and comment of anybody else, approvals included, does not
    change the verdict. *)
Theorem isReviewed_ignores_others (viewer : string) (pr : PullRequest) :
  isReviewed viewer (ownActivityOnly viewer pr) = isReviewed viewer pr.
Proof.
  rewrite !isReviewed_closed.
  unfold ownActivityOnly, approvedBy, viewerActivity.
  unfold viewerReviews, viewerComments.
  cbn [reviews comments updatedAt].
  now rewrite !filter_twice.
Qed.

Lemma Permutation_list_filter {A} (p : A -> bool) (l l' : list A) :
  Permutation l l' -> Permutation (List.filter p l) (List.filter p l').
Proof.
  induction 1 as [|x l l' _ IH|x y l|l l' l'' _ IH1 _ IH2]; simpl.
  - constructor.
  - destruct (p x); [now constructor | exact IH].
  - destruct (p x), (p y); try reflexivity. apply perm_swap.
  - now transitivity (List.filter p l').
Qed.

Lemma maxTime_Permutation (t : time) (l l' : list time) :
  Permutation l l' -> maxTime t l = maxTime t l'.
Proof.
  induction 1 as [|x l l' _ IH|x y l|l l' l'' _ IH1 _ IH2]; simpl;
    [reflexivity| now rewrite IH | lia | congruence].
Qed.

Lemma existsb_Permutation {A} (p : A -> bool) (l l' : list A) :
  Permutation l l' -> existsb p l = existsb p l'.
Proof.
  induction 1 as [|x l l' _ IH|x y l|l l' l'' _ IH1 _ IH2]; simpl;
    [reflexivity| now rewrite IH | | congruence].
  destruct (p x), (p y); reflexivity.
Qed.

(** X3. The verdict does not depend on the order in which the data source
    lists the reviews and the comments. *)
Theorem isReviewed_order_independent (viewer : string) (pr : PullRequest)
  (rs : list Review) (cs : list Comment) :
  Permutation (reviews pr) rs ->
  Permutation (comments pr) cs ->
  isReviewed viewer (withActivity rs cs pr) = isReviewed viewer pr.
Proof.
  intros Hr Hc. rewrite !isReviewed_closed.
  unfold approvedBy, viewerActivity, viewerReviews, viewerComments,
    withActivity.
  cbn [reviews comments updatedAt].
  pose proof (Permutation_list_filter
                (fun r => String.eqb (login (review_author r)) viewer)
                _ _ Hr) as Hr'.
  pose proof (Permutation_list_filter
                (fun c => String.eqb (login (comment_author c)) viewer)
                _ _ Hc) as Hc'.
  rewrite <- (existsb_Permutation _ _ _ Hr').
  rewrite <- (maxTime_Permutation 0 _ _
                (Permutation_app (Permutation_map review_createdAt Hr')
                   (Permutation_map comment_createdAt Hc'))).
  reflexivity.
Qed.

Lemma isReviewed_order_independent_witness :
  let pr := sample_pr "u1" 5 [remark alice 3; approval bob 9; remark alice 7]
              [comment_at alice 1; comment_at bob 8] in
  isReviewed "alice"
    (withActivity [remark alice 7; remark alice 3; approval bob 9]
       [comment_at bob 8; comment_at alice 1] pr)
  = isReviewed "alice" pr.
Proof.
  intros pr.
  apply (isReviewed_order_independent "alice" pr).
  - simpl. apply perm_trans with [remark alice 3; remark alice 7; approval bob 9].
    + apply perm_skip, perm_swap.
    + apply perm_swap.
  - simpl. apply perm_swap.
Defined.

(** ** [excludeReviewedPullRequests] as a filter *)

Section SetFilter.

Context {A : Type}.
Implicit Types (o : object A) (s : JSSet A).

Lemma set_has_In o s : set_has o s = true <-> In (address o) (map address s).
Proof.
  unfold set_has. rewrite existsb_exists, in_map_iff. split.
  - intros [x [Hin Hx]]. apply Nat.eqb_eq in Hx. now exists x.
  - intros [x [Hx Hin]]. exists x. split; [exact Hin|]. now apply Nat.eqb_eq.
Qed.

Lemma set_has_not_In o s :
  ~ In (address o) (map address s) -> set_has o s = false.
Proof.
  intros H. destruct (set_has o s) eqn:E; [|reflexivity].
  now apply set_has_In in E.
Qed.

(** Adding to a set keeps the addresses of its members distinct. *)
Lemma set_add_NoDup o s :
  List.NoDup (map address s) -> List.NoDup (map address (set_add o s)).
Proof.
  intros H. unfold set_add. destruct (set_has o s) eqn:E; [exact H|].
  rewrite map_app. apply List.NoDup_app; [exact H| |].
  - simpl. constructor; [intros []|constructor].
  - intros a Ha [<-|[]].
    assert (T : set_has o s = true) by now apply set_has_In.
    congruence.
Qed.

(** Filtering objects with distinct addresses into a set that holds none
    of them appends those that pass. *)
Lemma fold_add_filter (p : object A -> bool) (l : list (object A)) :
  forall s,
    List.NoDup (map address (s ++ l)) ->
    fold_left (fun s o => if p o then set_add o s else s) l s
    = s ++ List.filter p l.
Proof.
  induction l as [|o l IH]; intros s H; simpl.
  - now rewrite app_nil_r.
  - rewrite map_app in H. simpl in H.
    pose proof (List.NoDup_remove _ _ _ H) as [H1 H2].
    destruct (p o).
    + unfold set_add at 2. rewrite set_has_not_In.
      * rewrite IH; [now rewrite <- app_assoc|].
        rewrite <- app_assoc, map_app. exact H.
      * intros Hin. apply H2, in_or_app. now left.
    + apply IH. rewrite map_app. exact H1.
Qed.

Lemma fold_add_NoDup (p : object A -> bool) (l : list (object A)) :
  forall s,
    List.NoDup (map address s) ->
    List.NoDup
      (map address
         (fold_left (fun s o => if p o then set_add o s else s) l s)).
Proof.
  induction l as [|o l IH]; intros s H; simpl; [exact H|].
  apply IH. destruct (p o); [now apply set_add_NoDup | exact H].
Qed.

Lemma fold_add_all (p : object A -> bool) (l : list (object A)) :
  forall s,
    (forall x, In x s -> p x = true) ->
    forall x,
      In x (fold_left (fun s o => if p o then set_add o s else s) l s) ->
      p x = true.
Proof.
  induction l as [|o l IH]; intros s H x; simpl; [apply H|].
  apply IH. intros y. destruct (p o) eqn:E; [|apply H].
  unfold set_add. destruct (set_has o s); [apply H|].
  rewrite in_app_iff. simpl. intros [Hy|[<-|[]]]; [now apply H | exact E].
Qed.

End SetFilter.

(** X4. On a set whose members have distinct addresses, as every [Set]
    has, [excludeReviewedPullRequests] keeps exactly the unreviewed
    members, in their order. *)
Theorem excludeReviewed_is_filter (viewer : string)
  (pullRequests : JSSet PullRequest) :
  List.NoDup (map address pullRequests) ->
  excludeReviewedPullRequests viewer pullRequests
  = List.filter (fun p => isUnreviewed viewer (fields p)) pullRequests.
Proof.
  intros H. unfold excludeReviewedPullRequests.
  exact (fold_add_filter
           (fun p => negb (isReviewed viewer (fields p))) pullRequests [] H).
Qed.

Lemma excludeReviewed_is_filter_witness :
  let s := [Obj 0 (sample_pr "u1" 5 [] []);
            Obj 1 (sample_pr "u2" 5 [approval alice 2] []);
            Obj 2 (sample_pr "u1" 5 [] [])] in
  excludeReviewedPullRequests "alice" s
  = List.filter (fun p => isUnreviewed "alice" (fields p)) s.
Proof.
  intros s. apply (excludeReviewed_is_filter "alice" s).
  simpl. repeat constructor; simpl; intuition discriminate.
Defined.

(** X5. Classifying twice is classifying once, for any list of objects:
    [excludeReviewedPullRequests] returns a set of unreviewed pull
    requests with distinct addresses, and keeps such a set as it is. *)
Theorem excludeReviewed_idempotent (viewer : string)
  (pullRequests : JSSet PullRequest) :
  excludeReviewedPullRequests viewer
    (excludeReviewedPullRequests viewer pullRequests)
  = excludeReviewedPullRequests viewer pullRequests.
Proof.
  set (p := fun o : object PullRequest => negb (isReviewed viewer (fields o))).
  assert (N : List.NoDup
                (map address (excludeReviewedPullRequests viewer pullRequests))).
  { apply (fold_add_NoDup p). constructor. }
  assert (P : forall x,
             In x (excludeReviewedPullRequests viewer pullRequests) ->
             p x = true).
  { apply (fold_add_all p). intros x []. }
  transitivity
    (fold_left (fun s o => if p o then set_add o s else s)
       (excludeReviewedPullRequests viewer pullRequests) []);
    [reflexivity|].
  rewrite (fold_add_filter p _ [] N). simpl.
  apply forallb_filter_id, forallb_forall. exact P.
Qed.

Lemma map_address_alloc {A} (l : list A) (n : nat) :
  map address (alloc n l) = seq n (length l).
Proof.
  revert n. induction l as [|x l IH]; intros n; simpl; [reflexivity|].
  now rewrite IH.
Qed.

Lemma filter_and {A} (p q : A -> bool) (l : list A) :
  List.filter q (List.filter p l) = List.filter (fun x => p x && q x) l.
Proof.
  induction l as [|x l IH]; simpl; [reflexivity|].
  destruct (p x); simpl; [destruct (q x); now rewrite IH | exact IH].
Qed.

Lemma NoDup_map_filter {A B} (f : A -> B) (p : A -> bool) (l : list A) :
  List.NoDup (map f l) -> List.NoDup (map f (List.filter p l)).
Proof.
  induction l as [|x l IH]; simpl; intros H; [constructor|].
  apply List.NoDup_cons_iff in H as [Hx Hl].
  destruct (p x); [|now apply IH].
  simpl. constructor; [|now apply IH].
  intros Hin. apply Hx. apply in_map_iff in Hin as [y [Hy Hin]].
  apply filter_In in Hin as [Hin _]. rewrite <- Hy. now apply in_map.
Qed.

Lemma exclude_select_filter (viewer : string) (rs : list Repository)
  (n : nat) :
  excludeReviewedPullRequests viewer
    (selectPullRequests viewer (alloc_repositories n rs))
  = List.filter
      (fun o => relevant_spec viewer (fields o)
                && isUnreviewed viewer (fields o))
      (alloc n (concat (map pullRequests rs))).
Proof.
  rewrite selectPullRequests_filter, concat_alloc_repositories.
  unfold excludeReviewedPullRequests.
  rewrite (fold_add_filter
             (fun p => negb (isReviewed viewer (fields p))) _ []).
  - simpl. apply filter_and.
  - simpl. apply NoDup_map_filter. rewrite map_address_alloc.
    apply List.seq_NoDup.
Qed.

(** X6. Filter, then classify: out of the fetched nodes, the two steps
    together keep exactly the nodes that are relevant to the viewer and
    unreviewed, each once, in document order. *)
Theorem relevant_and_unreviewed (viewer : string) (rs : list Repository)
  (n : nat) :
  excludeReviewedPullRequests viewer
    (selectPullRequests viewer (alloc_repositories n rs))
  = List.filter
      (fun o => relevant_spec viewer (fields o)
                && isUnreviewed viewer (fields o))
      (concat (alloc_repositories n rs)).
Proof.
  rewrite concat_alloc_repositories. apply exclude_select_filter.
Qed.

Lemma map_fields_filter_alloc {A} (q : A -> bool) (l : list A) (n : nat) :
  map fields (List.filter (fun o => q (fields o)) (alloc n l))
  = List.filter q l.
Proof.
  revert n. induction l as [|x l IH]; intros n; simpl; [reflexivity|].
  destruct (q x); simpl; now rewrite IH.
Qed.

(** The records of the unreviewed set of a cycle do not depend on the
    addresses at which the answer was parsed. *)
Lemma unreviewed_fields (viewer : string) (rs : list Repository) (n : nat) :
  map fields
    (excludeReviewedPullRequests viewer
       (selectPullRequests viewer (alloc_repositories n rs)))
  = List.filter
      (fun p => relevant_spec viewer p && isUnreviewed viewer p)
      (concat (map pullRequests rs)).
Proof.
  rewrite exclude_select_filter.
  apply (map_fields_filter_alloc
           (fun p => relevant_spec viewer p && isUnreviewed viewer p)).
Qed.

(** ** The dedup step when calls fail *)

Lemma toNotify_spec_nil_prior (unreviewed : JSSet PullRequest) :
  toNotify_spec [] unreviewed = unreviewed.
Proof. unfold toNotify_spec. simpl. apply filter_true. Qed.

(** X7. The first run: when the storage has no [lastSeenPullRequests] at
    all, the dedup step notifies every unreviewed item. *)
Theorem first_run_notifies_all (token : string) (response : Response)
  (w : World) (unreviewed : JSSet PullRequest) :
  storage w !! "lastSeenPullRequests" = None ->
  let run :=
    showNotificationForNewPullRequests unreviewed (quiet token response) w in
  fst run = Ok tt
  /\ created (drop (length (trace w)) (trace (snd run)))
     = map id_and_message unreviewed.
Proof.
  intros Hnone run. subst run.
  rewrite showNotifications_run by apply quiet_quiet_from.
  unfold priorSeen. rewrite Hnone. simpl seenUrls.
  rewrite toNotify_spec_nil_prior.
  simpl fst. simpl snd. unfold set_storage, add_trace. simpl trace.
  rewrite drop_app_length. split; [reflexivity|].
  change (created (?c :: ?l)) with (created l).
  rewrite created_app, created_notifications. simpl. apply app_nil_r.
Qed.

Lemma first_run_notifies_all_witness :
  let run :=
    showNotificationForNewPullRequests two_new (quiet "t0" (env_response failing_env))
      empty_world in
  fst run = Ok tt
  /\ created (drop (length (trace empty_world)) (trace (snd run)))
     = [("u1", "Fix it"); ("u2", "Fix it")].
Proof.
  apply (first_run_notifies_all "t0" (env_response failing_env)
           empty_world two_new).
  reflexivity.
Defined.

Lemma In_firstn {A} (k : nat) (l : list A) (x : A) :
  In x (firstn k l) -> In x l.
Proof.
  revert k. induction l as [|y l IH]; intros [|k]; simpl; try tauto.
  intros [->|H]; [now left | right; now apply (IH k)].
Qed.

Lemma call_trace {A} (c : Call) (effect : World -> World)
  (answer : World -> A) (env : Env) (w : World) :
  (forall w, trace (effect w) = trace w) ->
  trace (snd (call c effect answer env w)) = trace w ++ [c].
Proof.
  intros H. unfold call. destruct (faults env (length (trace w))); simpl;
    [reflexivity | now rewrite H].
Qed.

Lemma showNotification_call (p : object PullRequest) (env : Env) (w : World) :
  showNotification p env w
  = call (notification_of p) (fun w => w) (fun _ => tt) env w.
Proof. reflexivity. Qed.

(** The loop of [showNotificationForNewPullRequests] in any environment:
    it gets through some of the new items, in order, and stops at the
    first call that fails. *)
Lemma notify_loop_any (env : Env) (prior : list string)
  (prs : JSSet PullRequest) :
  forall w, exists k,
    snd (for_each
           (fun pullRequest =>
              if negb (bool_decide
                         (url (fields pullRequest)
                            ∈ (list_to_set prior : gset string)))
              then showNotification pullRequest
              else ret tt)
           prs env w)
    = add_trace (map notification_of (firstn k (toNotify_spec prior prs))) w.
Proof.
  induction prs as [|p prs IH]; intros w; simpl.
  - exists 0%nat. simpl. now rewrite add_trace_nil.
  - unfold bind. rewrite bool_decide_seen. unfold toNotify_spec. simpl.
    destruct (inSeen prior (url (fields p))); simpl.
    + apply IH.
    + rewrite showNotification_call.
      destruct (faults env (length (trace w))) as [e|] eqn:F.
      * rewrite (call_throw _ _ _ _ _ _ F). exists 1%nat. reflexivity.
      * rewrite (call_ok _ _ _ _ _ F).
        destruct (IH (log_call (notification_of p) w)) as [k Hk].
        exists (S k). rewrite Hk.
        rewrite log_call_add_trace, add_trace_add_trace. reflexivity.
Qed.

(** X8. In any environment, whatever fails, the dedup step only ever
    calls [chrome.notifications.create] for items of the unreviewed set
    whose url is not in the prior seen-set, with the url as the id and
    the title as the message. *)
Theorem never_notifies_seen_url (env : Env) (w : World)
  (unreviewed : JSSet PullRequest) :
  let w' := snd (showNotificationForNewPullRequests unreviewed env w) in
  exists calls,
    trace w' = trace w ++ calls
    /\ forall id msg,
         In (NotificationsCreate id msg) calls ->
         ~ In id (priorSeen w)
         /\ exists p, In p unreviewed /\ url (fields p) = id
                      /\ title (fields p) = msg.
Proof.
  intros w'. subst w'.
  assert (G : forall k id msg tail,
    (forall c, In c tail -> is_notify c = false) ->
    In (NotificationsCreate id msg)
      (StorageGet "lastSeenPullRequests"
       :: map notification_of
            (firstn k (toNotify_spec (priorSeen w) unreviewed)) ++ tail) ->
    ~ In id (priorSeen w)
    /\ exists p, In p unreviewed /\ url (fields p) = id
                 /\ title (fields p) = msg).
  { intros k id msg tail Htail [Hc|Hc]; [discriminate|].
    apply in_app_iff in Hc as [Hc|Hc];
      [|apply Htail in Hc; discriminate].
    apply in_map_iff in Hc as [p [Hp Hin]].
    apply In_firstn, toNotify_spec_In in Hin as [Hin Hnew].
    injection Hp as <- <-. split; [exact Hnew|]. now exists p. }
  unfold showNotificationForNewPullRequests, getLastSeenPullRequestsUrls,
    storage_get, bind.
  destruct (faults env (length (trace w))) as [e|] eqn:F.
  - rewrite (call_throw _ _ _ _ _ _ F).
    exists [StorageGet "lastSeenPullRequests"]. split; [reflexivity|].
    intros id msg H. apply (G 0%nat id msg []); [intros c []|exact H].
  - rewrite (call_ok _ _ _ _ _ F). unfold ret at 1.
    destruct (notify_loop_any env (priorSeen w) unreviewed
                (log_call (StorageGet "lastSeenPullRequests") w)) as [k Hk].
    unfold priorSeen in Hk.
    destruct (for_each _ unreviewed env _) as [[[]|e] w1];
      simpl in Hk; subst w1.
    + unfold unawaited, recordSeenPullRequests, storage_set.
      cbn [snd]. rewrite call_trace by reflexivity.
      eexists. split.
      * simpl. rewrite <- !app_assoc. reflexivity.
      * intros id msg H. simpl in H.
        apply (G k id msg
                 [StorageSet "lastSeenPullRequests"
                    (VUrls (map (fun p => url (fields p)) unreviewed))]);
          [intros c [<-|[]]; reflexivity | exact H].
    + eexists. split; [simpl; rewrite <- app_assoc; reflexivity|].
      intros id msg H. simpl in H.
      apply (G k id msg []); [intros c []|].
      now rewrite app_nil_r.
Qed.

(** X9. When the dedup step fails (the reading of the seen-set or a
    notification throws), it has written nothing: the stored seen-set,
    like the rest of the storage, is as it was, so that the items are
    still new in the next cycle. *)
Theorem failed_dedup_writes_nothing (env : Env) (w w' : World)
  (unreviewed : JSSet PullRequest) (e : Error) :
  showNotificationForNewPullRequests unreviewed env w = (Throw e, w') ->
  storage w' = storage w.
Proof.
  unfold showNotificationForNewPullRequests, getLastSeenPullRequestsUrls,
    storage_get, bind.
  destruct (faults env (length (trace w))) as [e0|] eqn:F.
  - rewrite (call_throw _ _ _ _ _ _ F). intros [= _ <-]. reflexivity.
  - rewrite (call_ok _ _ _ _ _ F). unfold ret at 1.
    match goal with
    | |- context [for_each ?body unreviewed env ?w0] =>
        assert (U : storage (snd (for_each body unreviewed env w0))
                    = storage w0)
          by (apply unchanged_for_each; intros p; cbv beta;
              match goal with
              | |- context [negb ?b] => destruct (negb b)
              end; [|apply unchanged_ret];
              apply unchanged_call; reflexivity);
        destruct (for_each body unreviewed env w0) as [[[]|e1] w1]
    end.
    + unfold unawaited. discriminate.
    + intros [= _ <-]. exact U.
Qed.

Lemma failed_dedup_writes_nothing_witness :
  let run :=
    showNotificationForNewPullRequests two_new failing_notification_env
      stale_world in
  run = (Throw storage_failure, snd run)
  /\ storage (snd run) = storage stale_world.
Proof.
  intros run. split; [reflexivity|].
  apply (failed_dedup_writes_nothing failing_notification_env stale_world
           (snd run) two_new storage_failure).
  reflexivity.
Defined.

Lemma notify_loop_bounded (env : Env) (prior : list string)
  (prs : JSSet PullRequest) :
  forall w,
    quiet_between env (length (trace w))
      (length (trace w) + length (toNotify_spec prior prs)) ->
    for_each
      (fun pullRequest =>
         if negb (bool_decide
                    (url (fields pullRequest)
                       ∈ (list_to_set prior : gset string)))
         then showNotification pullRequest
         else ret tt)
      prs env w
    = (Ok tt, add_trace (map notification_of (toNotify_spec prior prs)) w).
Proof.
  induction prs as [|p prs IH]; intros w Hq; simpl.
  - unfold ret. now rewrite add_trace_nil.
  - unfold bind. rewrite bool_decide_seen.
    unfold toNotify_spec in *. simpl in *.
    destruct (inSeen prior (url (fields p))); simpl in *.
    + unfold ret at 1. apply IH, Hq.
    + rewrite showNotification_call.
      rewrite call_ok by (apply Hq; lia).
      rewrite IH.
      * rewrite log_call_add_trace, add_trace_add_trace. reflexivity.
      * intros k Hk. apply Hq. simpl in Hk. rewrite length_app in Hk.
        simpl in Hk. lia.
Qed.

(** X10. The storing of the seen-set is not awaited: when every call of
    the dedup step but this last one goes through, the step still ends
    normally, all the new items have been notified, and the stored
    seen-set, like the rest of the storage, is the old one. *)
Theorem lost_seen_set_write_is_silent (env : Env) (w : World)
  (unreviewed : JSSet PullRequest) (e : Error) :
  let new := toNotify_spec (priorSeen w) unreviewed in
  let last := (length (trace w) + 1 + length new)%nat in
  quiet_between env (length (trace w)) last ->
  faults env last = Some e ->
  exists w',
    showNotificationForNewPullRequests unreviewed env w = (Ok tt, w')
    /\ storage w' = storage w
    /\ created (drop (length (trace w)) (trace w')) = map id_and_message new.
Proof.
  intros new last Hq Hlast. eexists. split; [|split].
  - unfold showNotificationForNewPullRequests, getLastSeenPullRequestsUrls,
      storage_get, bind.
    rewrite call_ok by (apply Hq; subst last; lia). unfold ret at 1.
    rewrite notify_loop_bounded.
    + unfold unawaited, recordSeenPullRequests, storage_set.
      rewrite (call_throw _ _ _ _ _ e); [reflexivity|].
      rewrite <- Hlast. f_equal. subst last new. unfold priorSeen. simpl.
      rewrite !length_app, length_map. simpl. lia.
    + intros k Hk. apply Hq. subst last new. unfold priorSeen.
      simpl in Hk. rewrite length_app in Hk. simpl in Hk. lia.
  - reflexivity.
  - simpl. rewrite <- !app_assoc, drop_app_length. simpl.
    change (created (?c :: ?l)) with (created l).
    rewrite created_app, created_notifications. simpl. apply app_nil_r.
Qed.

Lemma lost_seen_set_write_is_silent_witness :
  exists w',
    showNotificationForNewPullRequests two_new failing_record_env stale_world
    = (Ok tt, w')
    /\ storage w' = storage stale_world
    /\ created (drop (length (trace stale_world)) (trace w'))
       = map id_and_message (toNotify_spec (priorSeen stale_world) two_new).
Proof.
  apply (lost_seen_set_write_is_silent failing_record_env stale_world
           two_new storage_failure).
  - intros k Hk. vm_compute in Hk. unfold failing_record_env, sample_env.
    simpl. destruct k as [|[|[|k]]]; try reflexivity. lia.
  - reflexivity.
Defined.

(** ** The state after a cycle *)

(** A cycle that goes through, in full. *)
Lemma cycle_success (env : Env) (w : World) (v : Viewer) :
  quiet_from env (length (trace w)) ->
  result_errors (body (env_response env)) = None ->
  negb (status (env_response env) =? 200)
  && truthy (result_message (body (env_response env))) = false ->
  result_data (body (env_response env)) = Some v ->
  let unreviewed :=
    excludeReviewedPullRequests (viewer_login v)
      (selectPullRequests (viewer_login v)
         (alloc_repositories (next_address w) (repositories v))) in
  exists w',
    checkPullRequests env w = (Ok tt, w')
    /\ storage w'
       = <["error" := VNull]>
           (<["lastSeenPullRequests" := VUrls (nextSeen_spec unreviewed)]>
              (<["unreviewedPullRequests" := VPulls (map fields unreviewed)]>
                 (storage w)))
    /\ badge w' = countBadge (set_size unreviewed)
    /\ next_address w'
       = (next_address w + node_count (body (env_response env)))%nat
    /\ trace w'
       = trace w
         ++ [GetToken; Fetch (env_token env); Json;
             StorageSet "unreviewedPullRequests"
               (VPulls (map fields unreviewed));
             SetBadgeText (decimal (set_size unreviewed));
             SetBadgeBackgroundColor
               (if Nat.eqb (set_size unreviewed) 0 then "#4d4" else "#f00");
             StorageGet "lastSeenPullRequests"]
         ++ map notification_of (toNotify_spec (priorSeen w) unreviewed)
         ++ [StorageSet "lastSeenPullRequests"
               (VUrls (nextSeen_spec unreviewed));
             StorageSet "error" VNull].
Proof.
  intros Hq Herrors Hstatus Hdata unreviewed.
  eexists. split.
  - rewrite checkPullRequests_steps.
    unfold bind at 1. unfold try_catch.
    rewrite (bind_ok _ _ _ _ _ _ (fetchStep_run env w v Hq Herrors Hstatus Hdata)).
    unfold afterFetch. fold unreviewed.
    unfold saveUnreviewedPullRequests, storage_set, updateBadge,
      setBadgeText, setBadgeBackgroundColor.
    unfold bind at 1. rewrite call_ok by quiet_step Hq.
    unfold bind at 1. unfold bind at 1. rewrite call_ok by quiet_step Hq.
    rewrite call_ok by quiet_step Hq.
    unfold bind at 1. rewrite showNotifications_run by quiet_step Hq.
    unfold ret. rewrite call_ok by quiet_step Hq.
    reflexivity.
  - split; [reflexivity|]. split; [reflexivity|]. split; [reflexivity|].
    unfold priorSeen. simpl.
    rewrite lookup_insert_ne by discriminate.
    rewrite <- !app_assoc. simpl. rewrite <- app_assoc. reflexivity.
Qed.

(** X11. After a cycle in which the data source answers well and no call
    fails, the stored error is null, the stored unreviewed list and the
    stored seen-set are those of this cycle, the badge shows the length
    of the stored list, green for none and red otherwise, and every other
    key of the storage is as it was. *)
Theorem successful_cycle_state (env : Env) (w : World) (v : Viewer) :
  quiet_from env (length (trace w)) ->
  result_errors (body (env_response env)) = None ->
  negb (status (env_response env) =? 200)
  && truthy (result_message (body (env_response env))) = false ->
  result_data (body (env_response env)) = Some v ->
  exists w' stored,
    checkPullRequests env w = (Ok tt, w')
    /\ stored
       = List.filter
           (fun p => relevant_spec (viewer_login v) p
                     && isUnreviewed (viewer_login v) p)
           (concat (map pullRequests (repositories v)))
    /\ storage w' !! "error" = Some VNull
    /\ storage w' !! "unreviewedPullRequests" = Some (VPulls stored)
    /\ storage w' !! "lastSeenPullRequests" = Some (VUrls (map url stored))
    /\ badge_text (badge w') = decimal (length stored)
    /\ badge_color (badge w')
       = (if Nat.eqb (length stored) 0 then "#4d4" else "#f00")
    /\ forall k, k <> "error" -> k <> "unreviewedPullRequests" ->
                 k <> "lastSeenPullRequests" ->
                 storage w' !! k = storage w !! k.
Proof.
  intros Hq Herrors Hstatus Hdata.
  destruct (cycle_success env w v Hq Herrors Hstatus Hdata)
    as [w' [Hrun [Hstorage [Hbadge _]]]].
  exists w'. eexists. split; [exact Hrun|]. split; [reflexivity|].
  rewrite Hstorage, Hbadge. unfold nextSeen_spec, set_size.
  rewrite <- (length_map fields), <- (map_map fields url).
  rewrite unreviewed_fields.
  split; [apply lookup_insert_eq|].
  split; [now rewrite !lookup_insert_ne, lookup_insert_eq by discriminate|].
  split; [now rewrite lookup_insert_ne, lookup_insert_eq by discriminate|].
  split; [reflexivity|]. split; [reflexivity|].
  intros k H1 H2 H3. now rewrite !lookup_insert_ne by congruence.
Qed.

Lemma successful_cycle_state_witness :
  let env := sample_env [sample_pr "u1" 5 [] []] (fun _ => None) in
  exists w' stored,
    checkPullRequests env stale_world = (Ok tt, w')
    /\ stored
       = List.filter
           (fun p => relevant_spec "alice" p && isUnreviewed "alice" p)
           [sample_pr "u1" 5 [] []]
    /\ storage w' !! "error" = Some VNull
    /\ storage w' !! "unreviewedPullRequests" = Some (VPulls stored)
    /\ storage w' !! "lastSeenPullRequests" = Some (VUrls (map url stored))
    /\ badge_text (badge w') = decimal (length stored)
    /\ badge_color (badge w')
       = (if Nat.eqb (length stored) 0 then "#4d4" else "#f00")
    /\ forall k, k <> "error" -> k <> "unreviewedPullRequests" ->
                 k <> "lastSeenPullRequests" ->
                 storage w' !! k = storage stale_world !! k.
Proof.
  intros env.
  apply (successful_cycle_state env stale_world
           (sample_viewer [sample_pr "u1" 5 [] []])).
  - intros k _. reflexivity.
  - reflexivity.
  - reflexivity.
  - reflexivity.
Defined.

Lemma nextSeen_spec_fields (unreviewed : JSSet PullRequest) :
  nextSeen_spec unreviewed = map url (map fields unreviewed).
Proof. unfold nextSeen_spec. now rewrite map_map. Qed.

Lemma toNotify_spec_all_seen (prior : list string)
  (unreviewed : JSSet PullRequest) :
  (forall p, In p unreviewed -> In (url (fields p)) prior) ->
  toNotify_spec prior unreviewed = [].
Proof.
  unfold toNotify_spec.
  induction unreviewed as [|p l IH]; intros H; simpl; [reflexivity|].
  rewrite (proj2 (inSeen_In _ _) (H p (or_introl eq_refl))). simpl.
  apply IH. intros q Hq. apply H. now right.
Qed.

(** X12. Two cycles in a row over the same good answer, with no failing
    call: the second cycle creates no notification at all, although its
    pull requests are new objects, and leaves the storage and the badge as
    the first cycle left them. *)
Theorem unchanged_answer_notifies_once (env : Env) (w : World) (v : Viewer) :
  quiet_from env (length (trace w)) ->
  result_errors (body (env_response env)) = None ->
  negb (status (env_response env) =? 200)
  && truthy (result_message (body (env_response env))) = false ->
  result_data (body (env_response env)) = Some v ->
  exists w1 w2,
    checkPullRequests env w = (Ok tt, w1)
    /\ checkPullRequests env w1 = (Ok tt, w2)
    /\ created (drop (length (trace w1)) (trace w2)) = []
    /\ storage w2 = storage w1
    /\ badge w2 = badge w1.
Proof.
  intros Hq Herrors Hstatus Hdata.
  destruct (cycle_success env w v Hq Herrors Hstatus Hdata)
    as [w1 [Hrun1 [Hstorage1 [Hbadge1 [_ Htrace1]]]]].
  assert (Hq1 : quiet_from env (length (trace w1))).
  { eapply quiet_from_le; [exact Hq|]. rewrite Htrace1, length_app. lia. }
  destruct (cycle_success env w1 v Hq1 Herrors Hstatus Hdata)
    as [w2 [Hrun2 [Hstorage2 [Hbadge2 [_ Htrace2]]]]].
  exists w1, w2. split; [exact Hrun1|]. split; [exact Hrun2|].
  set (U1 := excludeReviewedPullRequests (viewer_login v)
               (selectPullRequests (viewer_login v)
                  (alloc_repositories (next_address w) (repositories v))))
    in *.
  set (U2 := excludeReviewedPullRequests (viewer_login v)
               (selectPullRequests (viewer_login v)
                  (alloc_repositories (next_address w1) (repositories v))))
    in *.
  assert (F : map fields U2 = map fields U1)
    by (subst U1 U2; now rewrite !unreviewed_fields).
  assert (P : priorSeen w1 = nextSeen_spec U1).
  { unfold priorSeen. rewrite Hstorage1.
    now rewrite lookup_insert_ne, lookup_insert_eq by discriminate. }
  assert (N : toNotify_spec (priorSeen w1) U2 = []).
  { apply toNotify_spec_all_seen. intros p Hp.
    rewrite P, nextSeen_spec_fields, <- F, <- nextSeen_spec_fields.
    now apply (in_map (fun p => url (fields p))). }
  split; [|split].
  - rewrite Htrace2, N, drop_app_length. reflexivity.
  - rewrite Hstorage2, Hstorage1.
    rewrite !nextSeen_spec_fields, F.
    apply map_eq. intros k. rewrite !lookup_insert.
    repeat case_decide; reflexivity.
  - rewrite Hbadge2, Hbadge1. unfold set_size.
    now rewrite <- (length_map fields U2), F, length_map.
Qed.

Lemma unchanged_answer_notifies_once_witness :
  let env := sample_env [sample_pr "u1" 5 [] []] (fun _ => None) in
  exists w1 w2,
    checkPullRequests env empty_world = (Ok tt, w1)
    /\ checkPullRequests env w1 = (Ok tt, w2)
    /\ created (drop (length (trace w1)) (trace w2)) = []
    /\ storage w2 = storage w1
    /\ badge w2 = badge w1.
Proof.
  intros env.
  apply (unchanged_answer_notifies_once env empty_world
           (sample_viewer [sample_pr "u1" 5 [] []])).
  - intros k _. reflexivity.
  - reflexivity.
  - reflexivity.
  - reflexivity.
Defined.

(** ** What a cycle leaves alone, in any environment *)

Lemma unchanged_try_catch {X A} (f : World -> X) (body : M A)
  (handler : Error -> M A) :
  unchanged f body -> (forall e, unchanged f (handler e)) ->
  unchanged f (try_catch body handler).
Proof.
  intros Hb Hh env w. unfold try_catch.
  specialize (Hb env w). destruct (body env w) as [[a|e] w1]; simpl in *.
  - exact Hb.
  - now rewrite Hh.
Qed.

Lemma showNotifications_unchanged {X} (f : World -> X)
  (prs : JSSet PullRequest) :
  (forall c w, f (log_call c w) = f w) ->
  (forall v w, f (set_storage "lastSeenPullRequests" v w) = f w) ->
  unchanged f (showNotificationForNewPullRequests prs).
Proof.
  intros Hlog Hseen. unfold showNotificationForNewPullRequests.
  apply unchanged_bind.
  { unfold getLastSeenPullRequestsUrls. apply unchanged_bind.
    - apply unchanged_call; [apply Hlog | reflexivity].
    - intros v. apply unchanged_ret. }
  intros urls. apply unchanged_bind.
  { apply unchanged_for_each. intros p.
    destruct (negb _); [|apply unchanged_ret].
    apply unchanged_call; [apply Hlog | reflexivity]. }
  intros _. apply unchanged_unawaited.
  apply unchanged_call; [apply Hlog | apply Hseen].
Qed.

Lemma updateBadge_unchanged {X} (f : World -> X) (prCount : nat) :
  (forall c w, f (log_call c w) = f w) ->
  (forall t w, f (set_badge_text t w) = f w) ->
  (forall c w, f (set_badge_color c w) = f w) ->
  unchanged f (updateBadge prCount).
Proof.
  intros Hlog Htext Hcolor. unfold updateBadge.
  apply unchanged_bind; [|intros _]; apply unchanged_call; auto.
Qed.

Lemma checkPullRequests_unchanged {X} (f : World -> X) :
  (forall c w, f (log_call c w) = f w) ->
  (forall n w, f (reserve n w) = f w) ->
  (forall t w, f (set_badge_text t w) = f w) ->
  (forall c w, f (set_badge_color c w) = f w) ->
  (forall v w, f (set_storage "unreviewedPullRequests" v w) = f w) ->
  (forall v w, f (set_storage "lastSeenPullRequests" v w) = f w) ->
  (forall v w, f (set_storage "error" v w) = f w) ->
  unchanged f checkPullRequests.
Proof.
  intros Hlog Hres Htext Hcolor Hsave Hseen Herror env w.
  rewrite checkPullRequests_steps. revert env w.
  change (unchanged f
            (do error <-
               try_catch (do fetched <- fetchStep; afterFetch fetched)
                 (fun e => do _ <- showBadgeError; ret (Some e));
             storage_set "error"
               match error with
               | Some e => VString (message e)
               | None => VNull
               end)).
  apply unchanged_bind.
  - apply unchanged_try_catch.
    + apply unchanged_bind; [now apply fetchStep_unchanged|].
      intros [login prs]. unfold afterFetch.
      apply unchanged_bind;
        [apply unchanged_call; [apply Hlog | apply Hsave]|].
      intros _. apply unchanged_bind; [now apply updateBadge_unchanged|].
      intros _. apply unchanged_bind;
        [now apply showNotifications_unchanged|].
      intros _. apply unchanged_ret.
    + intros e. apply unchanged_bind; [|intros _; apply unchanged_ret].
      unfold showBadgeError.
      apply unchanged_bind; [|intros _]; apply unchanged_call; auto.
  - intros error. apply unchanged_call; [apply Hlog | apply Herror].
Qed.

(** X13. In any environment and however it ends, a cycle writes no key of
    the storage other than [unreviewedPullRequests], [lastSeenPullRequests]
    and [error]. *)
Theorem cycle_writes_three_keys_only (env : Env) (w : World) (k : string) :
  k <> "unreviewedPullRequests" ->
  k <> "lastSeenPullRequests" ->
  k <> "error" ->
  storage (snd (checkPullRequests env w)) !! k = storage w !! k.
Proof.
  intros H1 H2 H3.
  apply (checkPullRequests_unchanged (fun w => storage w !! k));
    try reflexivity;
    intros v w0; simpl; now rewrite lookup_insert_ne.
Qed.

Lemma cycle_writes_three_keys_only_witness :
  storage (snd (checkPullRequests failing_badge_env stale_world)) !! "token"
  = storage stale_world !! "token".
Proof.
  apply (cycle_writes_three_keys_only failing_badge_env stale_world "token");
    discriminate.
Defined.

(** X18. In any environment and however it ends, the fetch step (token,
    request, parsing) changes neither the storage nor the badge. *)
Theorem fetch_touches_nothing (env : Env) (w : World) :
  storage (snd (fetchStep env w)) = storage w
  /\ badge (snd (fetchStep env w)) = badge w.
Proof.
  split.
  - now apply (fetchStep_unchanged storage).
  - now apply (fetchStep_unchanged badge).
Qed.

(** ** Badge and error after a cycle that returns *)

Lemma bind_inv_ok {A B} (m : M A) (k : A -> M B) (env : Env) (w w' : World)
  (b : B) :
  bind m k env w = (Ok b, w') ->
  exists a w1, m env w = (Ok a, w1) /\ k a env w1 = (Ok b, w').
Proof.
  unfold bind. destruct (m env w) as [[a|e] w1]; [|discriminate].
  intros H. now exists a, w1.
Qed.

Lemma call_inv_ok {A} (c : Call) (effect : World -> World)
  (answer : World -> A) (env : Env) (w w' : World) (a : A) :
  call c effect answer env w = (Ok a, w') ->
  a = answer w /\ w' = effect (log_call c w).
Proof.
  unfold call. destruct (faults env (length (trace w))); [discriminate|].
  intros [= <- <-]. now split.
Qed.

(** When the rest of the [try] block goes through, it has stored the
    unreviewed set and set the badge to its size. *)
Lemma afterFetch_ok (login : string) (prs : JSSet PullRequest) (env : Env)
  (w w' : World) (r : option Error) :
  afterFetch (login, prs) env w = (Ok r, w') ->
  let unreviewed := excludeReviewedPullRequests login prs in
  r = None
  /\ storage w' !! "unreviewedPullRequests"
     = Some (VPulls (map fields unreviewed))
  /\ badge w' = countBadge (set_size unreviewed).
Proof.
  intros H unreviewed. unfold afterFetch in H. fold unreviewed in H.
  apply bind_inv_ok in H as [[] [w1 [Hsave H]]].
  apply bind_inv_ok in H as [[] [w2 [Hbadge H]]].
  apply bind_inv_ok in H as [[] [w3 [Hnotify H]]].
  unfold ret in H. injection H as <- <-.
  apply call_inv_ok in Hsave as [_ ->].
  unfold updateBadge in Hbadge.
  apply bind_inv_ok in Hbadge as [[] [w4 [Htext Hcolor]]].
  apply call_inv_ok in Htext as [_ ->].
  apply call_inv_ok in Hcolor as [_ ->].
  assert (Ustore : forall w0,
            storage (snd (showNotificationForNewPullRequests unreviewed env w0))
              !! "unreviewedPullRequests"
            = storage w0 !! "unreviewedPullRequests").
  { intros w0.
    apply (showNotifications_unchanged
             (fun w => storage w !! "unreviewedPullRequests"));
      [reflexivity|].
    intros v w4. simpl. now rewrite lookup_insert_ne. }
  assert (Ubadge : forall w0,
            badge (snd (showNotificationForNewPullRequests unreviewed env w0))
            = badge w0)
    by (intros w0; now apply (showNotifications_unchanged badge)).
  match type of Hnotify with
  | _ _ ?w0 = _ => specialize (Ustore w0); specialize (Ubadge w0)
  end.
  rewrite Hnotify in Ustore, Ubadge. simpl in Ustore, Ubadge.
  split; [reflexivity|]. split.
  - rewrite Ustore. apply lookup_insert_eq.
  - exact Ubadge.
Qed.

(** [checkPullRequests] is its [try] block, its [catch] block and the
    storing of the error. *)
Lemma checkPullRequests_tryBlock :
  checkPullRequests
  = (do error <-
       try_catch tryBlock (fun e => do _ <- showBadgeError; ret (Some e));
     storage_set "error"
       (match error with
        | Some e => VString (message e)
        | None => VNull
        end)).
Proof. reflexivity. Qed.

Lemma tryBlock_steps (env : Env) (w : World) :
  tryBlock env w = (do fetched <- fetchStep; afterFetch fetched) env w.
Proof. unfold tryBlock, fetchStep. rewrite bind_assoc. reflexivity. Qed.

(** X14. In any environment, when a cycle returns normally the badge and
    the stored error agree with what its [try] block did.  Either the
    [try] block went through: then the stored error is null, a list of
    unreviewed pull requests is stored and the badge shows its length
    (green for 0, red otherwise).  Or the [try] block threw some [e]:
    then the stored error is the message of that very [e] and the badge
    is the error badge. *)
Theorem badge_agrees_with_error (env : Env) (w w' : World) :
  checkPullRequests env w = (Ok tt, w') ->
  (exists wb,
     tryBlock env w = (Ok None, wb)
     /\ storage w' !! "error" = Some VNull
     /\ exists stored,
          storage w' !! "unreviewedPullRequests" = Some (VPulls stored)
          /\ badge w' = countBadge (length stored))
  \/ (exists e wb,
        tryBlock env w = (Throw e, wb)
        /\ storage w' !! "error" = Some (VString (message e))
        /\ badge w' = errorBadge).
Proof.
  intros H. rewrite checkPullRequests_steps in H.
  apply bind_inv_ok in H as [error [w1 [Htry Hstore]]].
  apply call_inv_ok in Hstore as [_ ->].
  unfold try_catch in Htry. rewrite tryBlock_steps.
  destruct ((do fetched <- fetchStep; afterFetch fetched) env w)
    as [[r|e] wb] eqn:B.
  - injection Htry as <- <-.
    apply bind_inv_ok in B as [[login prs] [w0 [_ Hafter]]].
    apply afterFetch_ok in Hafter as [-> [Hstored Hbadge]].
    left. exists wb. split; [reflexivity|]. simpl.
    split; [apply lookup_insert_eq|].
    exists (map fields (excludeReviewedPullRequests login prs)).
    rewrite lookup_insert_ne by discriminate.
    split; [exact Hstored|]. rewrite length_map. exact Hbadge.
  - apply bind_inv_ok in Htry as [[] [w2 [Hbadge Hret]]].
    unfold ret in Hret. injection Hret as <- <-.
    unfold showBadgeError in Hbadge.
    apply bind_inv_ok in Hbadge as [[] [w3 [Htext Hcolor]]].
    apply call_inv_ok in Htext as [_ ->].
    apply call_inv_ok in Hcolor as [_ ->].
    right. exists e, wb. split; [reflexivity|]. simpl.
    split; [apply lookup_insert_eq | reflexivity].
Qed.

Lemma badge_agrees_with_error_witness :
  let w' := snd (checkPullRequests failing_badge_env stale_world) in
  checkPullRequests failing_badge_env stale_world = (Ok tt, w')
  /\ ((exists wb,
         tryBlock failing_badge_env stale_world = (Ok None, wb)
         /\ storage w' !! "error" = Some VNull
         /\ exists stored,
              storage w' !! "unreviewedPullRequests" = Some (VPulls stored)
              /\ badge w' = countBadge (length stored))
      \/ (exists e wb,
            tryBlock failing_badge_env stale_world = (Throw e, wb)
            /\ storage w' !! "error" = Some (VString (message e))
            /\ badge w' = errorBadge)).
Proof.
  intros w'. split; [reflexivity|].
  apply (badge_agrees_with_error failing_badge_env stale_world w').
  reflexivity.
Defined.

(** ** The answers that make a cycle fail *)

Ltac run_fetch Hq :=
  unfold fetchStep, getGitHubApiToken, loadPullRequests, fetch, json;
  unfold bind at 1; rewrite call_ok by quiet_step Hq;
  unfold bind at 1; rewrite call_ok by quiet_step Hq;
  unfold bind at 1; rewrite call_ok by quiet_step Hq;
  cbn [result first_address].

(** A cycle whose fetch step throws after its three calls, the other calls
    going through: the error is recorded and nothing else is written or
    notified. *)
Lemma failed_fetch_cycle (env : Env) (w : World) (e : Error) :
  quiet_from env (length (trace w)) ->
  fetchStep env w
  = (Throw e,
     reserve (node_count (body (env_response env)))
       (log_call Json
          (log_call (Fetch (env_token env)) (log_call GetToken w)))) ->
  exists w',
    checkPullRequests env w = (Ok tt, w')
    /\ storage w' = <["error" := VString (message e)]> (storage w)
    /\ badge w' = errorBadge
    /\ created (drop (length (trace w)) (trace w')) = [].
Proof.
  intros Hq Hfetch.
  destruct (error_path (do fetched <- fetchStep; afterFetch fetched)
              env w _ e (bind_throw _ _ _ _ _ _ Hfetch))
    as [w' [Hrun [Hbadge [Hstorage Htrace]]]].
  { quiet_step Hq. }
  exists w'. rewrite checkPullRequests_steps.
  split; [exact Hrun|]. split; [exact Hstorage|]. split; [exact Hbadge|].
  rewrite Htrace. simpl. rewrite <- !app_assoc, drop_app_length. reflexivity.
Qed.

(** X15. GraphQL errors come first: when the body of the answer has a
    non-empty [errors] array, whatever its status and its data, the cycle
    stores the message of the first error, shows the error badge, and
    neither notifies nor writes anything else. *)
Theorem graphql_errors_come_first (env : Env) (w : World)
  (first : string) (others : list string) :
  quiet_from env (length (trace w)) ->
  result_errors (body (env_response env)) = Some (first :: others) ->
  exists w',
    checkPullRequests env w = (Ok tt, w')
    /\ storage w' = <["error" := VString first]> (storage w)
    /\ badge w' = errorBadge
    /\ created (drop (length (trace w)) (trace w')) = [].
Proof.
  intros Hq Herrors.
  apply (failed_fetch_cycle env w {| message := first |} Hq).
  run_fetch Hq. now rewrite Herrors.
Qed.

Lemma graphql_errors_come_first_witness :
  exists w',
    checkPullRequests (errors_env ["Rate limited"; "Other"]) stale_world
    = (Ok tt, w')
    /\ storage w' = <["error" := VString "Rate limited"]> (storage stale_world)
    /\ badge w' = errorBadge
    /\ created (drop (length (trace stale_world)) (trace w')) = [].
Proof.
  apply (graphql_errors_come_first (errors_env ["Rate limited"; "Other"])
           stale_world "Rate limited" ["Other"]).
  - intros k _. reflexivity.
  - reflexivity.
Defined.

(** X16. An empty [errors] array is still an error: being an array it is
    truthy, reading the message of its first entry throws, and the cycle
    ends with the error badge and a stored error message, even when the
    status is 200 and the data is good. *)
Theorem empty_errors_array_fails (env : Env) (w : World) :
  quiet_from env (length (trace w)) ->
  result_errors (body (env_response env)) = Some [] ->
  exists w' msg,
    checkPullRequests env w = (Ok tt, w')
    /\ storage w' = <["error" := VString msg]> (storage w)
    /\ badge w' = errorBadge
    /\ created (drop (length (trace w)) (trace w')) = [].
Proof.
  intros Hq Herrors.
  destruct (failed_fetch_cycle env w (TypeError "message") Hq)
    as [w' H].
  { run_fetch Hq. now rewrite Herrors. }
  exists w', (message (TypeError "message")). exact H.
Qed.

Lemma empty_errors_array_fails_witness :
  exists w' msg,
    checkPullRequests (errors_env []) stale_world = (Ok tt, w')
    /\ storage w' = <["error" := VString msg]> (storage stale_world)
    /\ badge w' = errorBadge
    /\ created (drop (length (trace stale_world)) (trace w')) = [].
Proof.
  apply (empty_errors_array_fails (errors_env []) stale_world).
  - intros k _. reflexivity.
  - reflexivity.
Defined.

(** X17. Without [errors], an answer whose status is not 200 and whose
    body has a non-empty [message] fails the cycle with that message,
    even when it carries good data; the data is not looked at. *)
Theorem failure_status_message_is_the_error (env : Env) (w : World)
  (msg : string) :
  quiet_from env (length (trace w)) ->
  result_errors (body (env_response env)) = None ->
  status (env_response env) <> 200 ->
  result_message (body (env_response env)) = Some msg ->
  msg <> "" ->
  exists w',
    checkPullRequests env w = (Ok tt, w')
    /\ storage w' = <["error" := VString msg]> (storage w)
    /\ badge w' = errorBadge
    /\ created (drop (length (trace w)) (trace w')) = [].
Proof.
  intros Hq Herrors Hstatus Hmessage Hmsg.
  apply (failed_fetch_cycle env w {| message := msg |} Hq).
  run_fetch Hq. rewrite Herrors, Hmessage. simpl.
  rewrite (proj2 (Z.eqb_neq _ _) Hstatus).
  rewrite (proj2 (String.eqb_neq _ _) Hmsg). reflexivity.
Qed.

Lemma failure_status_message_is_the_error_witness :
  exists w',
    checkPullRequests http_failure_env stale_world = (Ok tt, w')
    /\ storage w' = <["error" := VString "Bad gateway"]> (storage stale_world)
    /\ badge w' = errorBadge
    /\ created (drop (length (trace stale_world)) (trace w')) = [].
Proof.
  apply (failure_status_message_is_the_error http_failure_env stale_world
           "Bad gateway").
  - intros k _. reflexivity.
  - reflexivity.
  - discriminate.
  - reflexivity.
  - discriminate.
Defined.

(** X20. Without a token there is no request: when [getGitHubApiToken]
    fails and the other calls go through, the cycle makes just four
    calls, the one for the token, the two of the error badge and the
    storing of the failure's message. *)
Theorem token_failure_sends_no_request (env : Env) (w : World) (e : Error) :
  faults env (length (trace w)) = Some e ->
  quiet_from env (S (length (trace w))) ->
  exists w',
    checkPullRequests env w = (Ok tt, w')
    /\ trace w'
       = trace w
         ++ [GetToken; SetBadgeText "!"; SetBadgeBackgroundColor "#000";
             StorageSet "error" (VString (message e))]
    /\ storage w' = <["error" := VString (message e)]> (storage w).
Proof.
  intros Hfault Hq.
  assert (Hfetch : fetchStep env w = (Throw e, log_call GetToken w)).
  { unfold fetchStep, getGitHubApiToken. apply bind_throw.
    now apply call_throw. }
  destruct (error_path (do fetched <- fetchStep; afterFetch fetched)
              env w _ e (bind_throw _ _ _ _ _ _ Hfetch))
    as [w' [Hrun [_ [Hstorage Htrace]]]].
  { eapply quiet_from_le; [exact Hq|]. simpl. rewrite length_app. simpl. lia. }
  exists w'. rewrite checkPullRequests_steps.
  split; [exact Hrun|]. split; [|exact Hstorage].
  rewrite Htrace. simpl. now rewrite <- app_assoc.
Qed.

Lemma token_failure_sends_no_request_witness :
  exists w',
    checkPullRequests no_token_env stale_world = (Ok tt, w')
    /\ trace w'
       = trace stale_world
         ++ [GetToken; SetBadgeText "!"; SetBadgeBackgroundColor "#000";
             StorageSet "error" (VString "no token")]
    /\ storage w' = <["error" := VString "no token"]> (storage stale_world).
Proof.
  apply (token_failure_sends_no_request no_token_env stale_world
           token_failure).
  - reflexivity.
  - intros k Hk. simpl in Hk. destruct k as [|k]; [lia | reflexivity].
Defined.

(** ** The text field of the whitelisted teams *)

Lemma last_nonempty_default {A} (l : list A) (a d d' : A) :
  List.last (a :: l) d = List.last (a :: l) d'.
Proof.
  revert a. induction l as [|b l IH]; intros a; [reflexivity|].
  change (List.last (b :: l) d = List.last (b :: l) d'). apply IH.
Qed.

Lemma handleBlurs_calls (whitelistedTeams : string) (values : list string) :
  handleBlurs true whitelistedTeams values
  = (List.last values whitelistedTeams,
     List.removelast (whitelistedTeams :: values)).
Proof.
  revert whitelistedTeams.
  induction values as [|v vs IH]; intros s; [reflexivity|].
  cbn [handleBlurs handleWhitelistedTeamsChange]. rewrite IH.
  destruct vs as [|v' vs]; [reflexivity|].
  f_equal. change (List.last (v :: v' :: vs) s) with (List.last (v' :: vs) s).
  apply last_nonempty_default.
Qed.

(** X19. While the text field is shown, each blur hands to
    [onChangeWhitelistedTeams] the text the state held before that blur,
    not the text of the field: over a series of blurs the callback gets
    the initial empty text and then every text but the last, which only
    the state holds. *)
Theorem whitelisted_teams_callback_lags (toggled : option bool)
  (hasCallback : bool) (values : list string) :
  whitelistedTeamsInputShown toggled hasCallback = true ->
  handleBlurs hasCallback "" values
  = (List.last values "", List.removelast ("" :: values)).
Proof.
  intros Hshown.
  assert (hasCallback = true) as ->
    by (destruct toggled as [[|]|]; simpl in Hshown; congruence).
  apply handleBlurs_calls.
Qed.

Lemma whitelisted_teams_callback_lags_witness :
  handleBlurs true "" ["team1"; "team1, team2"]
  = ("team1, team2", [""; "team1"]).
Proof.
  apply (whitelisted_teams_callback_lags (Some true) true
           ["team1"; "team1, team2"]).
  reflexivity.
Defined.
